(** * cmsdata-client: the query builder and the fetch pipeline of [src/index.js]

    The development embeds the [CMSClient] class and the [createClient]
    factory of [src/index.js].  A client object is a record, each method is
    a computation in a small state-and-exception monad over "the object and
    the trace of its observable effects" (calls of the HTTP collaborator and
    [console.warn]).  The collaborator [fetch] is an argument of the
    computations that use it. *)

From Stdlib Require Import String Ascii List ZArith Lia Bool.
From Stdlib Require Import DecimalString.
Import ListNotations.

Set Warnings "-register-all".

Local Open Scope string_scope.
Local Open Scope Z_scope.

(** ** JavaScript values that reach the client

    Arguments are modelled at the types the JSDoc comments give them:
    numbers are the integers (rendered in decimal, as [Number::toString]
    does below 10^21), strings are finite character sequences, an array
    argument of [select] holds column names.  A property that an object does
    not have reads as [undefined]; in the records below such a property is
    [None]. *)

Inductive JsVal : Type :=
| VUndefined
| VNull
| VBool (b : bool)
| VNum (n : Z)
| VStr (s : string)
| VArr (l : list string).

(** ToBoolean. *)
Definition truthy (v : JsVal) : bool :=
  match v with
  | VUndefined | VNull => false
  | VBool b => b
  | VNum n => negb (n =? 0)
  | VStr s => negb (s =? "")%string
  | VArr _ => true
  end.

(** ToBoolean of a property that holds a string when present. *)
Definition truthy_str (v : option string) : bool :=
  match v with
  | None => false
  | Some s => negb (s =? "")%string
  end.

(** ToBoolean of a property that holds a boolean when present. *)
Definition truthy_flag (v : option bool) : bool :=
  match v with
  | None => false
  | Some b => b
  end.

(** [Number::toString] on an integer. *)
Definition num_to_string (n : Z) : string :=
  NilZero.string_of_int (Z.to_int n).

(** [Array.prototype.join] with its default separator, a comma. *)
Fixpoint join (l : list string) : string :=
  match l with
  | [] => ""
  | [s] => s
  | s :: rest => s ++ "," ++ join rest
  end.

(** [String.prototype.split(',')]: the pieces between the commas; the empty
    string splits into one empty piece. *)
Fixpoint split_comma (s : string) : list string :=
  match s with
  | EmptyString => [""]
  | String c rest =>
      if Ascii.eqb c ","%char then "" :: split_comma rest
      else match split_comma rest with
           | [] => [String c ""]
           | piece :: pieces => String c piece :: pieces
           end
  end.

(** ToString, as a template literal applies it. *)
Definition to_string (v : JsVal) : string :=
  match v with
  | VUndefined => "undefined"
  | VNull => "null"
  | VBool true => "true"
  | VBool false => "false"
  | VNum n => num_to_string n
  | VStr s => s
  | VArr l => join l
  end.

(** ToString of a property that holds a string when present. *)
Definition str_or_undefined (v : option string) : string :=
  match v with
  | None => "undefined"
  | Some s => s
  end.

(** [v !== ''] for a property that holds a string when present. *)
Definition not_empty_string (v : option string) : bool :=
  match v with
  | None => true
  | Some s => negb (s =? "")%string
  end.

(** [v > 0] for a property that holds a number when present:
    [undefined] converts to NaN, and every comparison with NaN is false. *)
Definition gt_zero (v : option Z) : bool :=
  match v with
  | None => false
  | Some n => 0 <? n
  end.

(** The last character of a string, [s[s.length - 1]]. *)
Fixpoint last_char (s : string) : option ascii :=
  match s with
  | EmptyString => None
  | String c EmptyString => Some c
  | String _ rest => last_char rest
  end.

Definition ends_with_qmark (s : string) : bool :=
  match last_char s with
  | Some c => Ascii.eqb c "?"%char
  | None => false
  end.

(** Substring test, used to state what a URL contains. *)
Fixpoint contains (needle hay : string) : bool :=
  if String.prefix needle hay then true
  else match hay with
       | EmptyString => false
       | String _ rest => contains needle rest
       end.

(** ** JSON documents and [JSON.parse]

    [JSON.parse] is the built-in the client applies to the fields header;
    the collaborator's [Response.json()] applies it to the body.  A number is
    kept as its literal (the client never computes with one), an object as
    its members in source order, a repeated key keeping its first position
    and its last value. *)

Inductive Json : Type :=
| JNull
| JBool (b : bool)
| JNumber (literal : string)
| JString (s : string)
| JArray (items : list Json)
| JObject (members : list (string * Json)).

Module JSON.

Definition is_ws (c : ascii) : bool :=
  match nat_of_ascii c with
  | 32%nat | 9%nat | 10%nat | 13%nat => true
  | _ => false
  end.

Fixpoint skip_ws (s : string) : string :=
  match s with
  | String c rest => if is_ws c then skip_ws rest else s
  | EmptyString => s
  end.

(** The text after the character [c], when [s] starts with it. *)
Definition after_char (c : ascii) (s : string) : option string :=
  match s with
  | String c' rest => if Ascii.eqb c' c then Some rest else None
  | EmptyString => None
  end.

Definition is_digit (c : ascii) : bool :=
  let n := nat_of_ascii c in (48 <=? n)%nat && (n <=? 57)%nat.

(** The longest run of digits at the head of [s], and what follows it. *)
Fixpoint digits (s : string) : string * string :=
  match s with
  | String c rest =>
      if is_digit c then let (ds, r) := digits rest in (String c ds, r)
      else ("", s)
  | EmptyString => ("", s)
  end.

(** A number: an optional minus sign; then a zero, or a non-zero digit and
    any digits; then, optionally, a point and at least one digit; then,
    optionally, e or E, an optional sign and at least one digit. *)
Definition lex_int (s : string) : option (string * string) :=
  match s with
  | String c rest =>
      if Ascii.eqb c "0"%char then Some ("0", rest)
      else if is_digit c then let (ds, r) := digits rest in Some (String c ds, r)
      else None
  | EmptyString => None
  end.

Definition lex_frac (s : string) : option (string * string) :=
  match after_char "."%char s with
  | Some rest =>
      match digits rest with
      | (EmptyString, _) => None
      | (ds, r) => Some (String "."%char ds, r)
      end
  | None => Some ("", s)
  end.

Definition lex_exp (s : string) : option (string * string) :=
  match s with
  | String c rest =>
      if Ascii.eqb c "e"%char || Ascii.eqb c "E"%char then
        let (sign, rest') :=
          match rest with
          | String d r =>
              if Ascii.eqb d "+"%char || Ascii.eqb d "-"%char
              then (String d "", r) else ("", rest)
          | EmptyString => ("", rest)
          end in
        match digits rest' with
        | (EmptyString, _) => None
        | (ds, r) => Some (String c (sign ++ ds), r)
        end
      else Some ("", s)
  | EmptyString => Some ("", s)
  end.

Definition lex_number (s : string) : option (string * string) :=
  let (sign, s1) :=
    match after_char "-"%char s with
    | Some r => ("-", r)
    | None => ("", s)
    end in
  match lex_int s1 with
  | None => None
  | Some (i, s2) =>
      match lex_frac s2 with
      | None => None
      | Some (f, s3) =>
          match lex_exp s3 with
          | None => None
          | Some (e, s4) => Some (sign ++ i ++ f ++ e, s4)
          end
      end
  end.

(** What a string literal denotes, piece by piece: a character of the
    source, or the UTF-16 code unit of a u-escape (four hexadecimal digits). *)
Inductive Piece : Type :=
| PChar (c : ascii)
| PUnit (u : N).

Definition hex_digit (c : ascii) : option N :=
  let n := N_of_ascii c in
  if (48 <=? n)%N && (n <=? 57)%N then Some (n - 48)%N
  else if (65 <=? n)%N && (n <=? 70)%N then Some (n - 55)%N
  else if (97 <=? n)%N && (n <=? 102)%N then Some (n - 87)%N
  else None.

Definition hex4 (a b c d : ascii) : option N :=
  match hex_digit a, hex_digit b, hex_digit c, hex_digit d with
  | Some x, Some y, Some z, Some w => Some (((x * 16 + y) * 16 + z) * 16 + w)%N
  | _, _, _, _ => None
  end.

Definition simple_escape (c : ascii) : option ascii :=
  match nat_of_ascii c with
  | 34%nat => Some (ascii_of_nat 34)    (* quote *)
  | 92%nat => Some (ascii_of_nat 92)    (* backslash *)
  | 47%nat => Some (ascii_of_nat 47)    (* slash *)
  | 98%nat => Some (ascii_of_nat 8)     (* b: backspace *)
  | 102%nat => Some (ascii_of_nat 12)   (* f: form feed *)
  | 110%nat => Some (ascii_of_nat 10)   (* n: line feed *)
  | 114%nat => Some (ascii_of_nat 13)   (* r: carriage return *)
  | 116%nat => Some (ascii_of_nat 9)    (* t: tab *)
  | _ => None
  end.

Definition cons_piece (p : Piece) (r : option (list Piece * string))
  : option (list Piece * string) :=
  match r with
  | Some (ps, rest) => Some (p :: ps, rest)
  | None => None
  end.

(** The body of a string literal, after its opening quote, up to and
    including the closing quote. *)
Fixpoint lex_string_body (s : string) : option (list Piece * string) :=
  match s with
  | EmptyString => None
  | String c r =>
      if Ascii.eqb c (ascii_of_nat 34) then Some ([], r)
      else if Ascii.eqb c (ascii_of_nat 92) then
        match r with
        | String e r1 =>
            match simple_escape e with
            | Some b => cons_piece (PChar b) (lex_string_body r1)
            | None =>
                if Ascii.eqb e "u"%char then
                  match r1 with
                  | String h1 (String h2 (String h3 (String h4 r2))) =>
                      match hex4 h1 h2 h3 h4 with
                      | Some u => cons_piece (PUnit u) (lex_string_body r2)
                      | None => None
                      end
                  | _ => None
                  end
                else None
            end
        | EmptyString => None
        end
      else if (nat_of_ascii c <? 32)%nat then None
      else cons_piece (PChar c) (lex_string_body r)
  end.

Definition byte (n : N) : ascii := ascii_of_N n.

(** UTF-8 of a code point (of a lone surrogate too). *)
Definition utf8 (cp : N) : string :=
  if (cp <? 128)%N then String (byte cp) ""
  else if (cp <? 2048)%N then
    String (byte (192 + cp / 64)) (String (byte (128 + cp mod 64)) "")
  else if (cp <? 65536)%N then
    String (byte (224 + cp / 4096))
      (String (byte (128 + (cp / 64) mod 64))
         (String (byte (128 + cp mod 64)) ""))
  else
    String (byte (240 + cp / 262144))
      (String (byte (128 + (cp / 4096) mod 64))
         (String (byte (128 + (cp / 64) mod 64))
            (String (byte (128 + cp mod 64)) ""))).

Definition is_high (u : N) : bool := (55296 <=? u)%N && (u <? 56320)%N.
Definition is_low (u : N) : bool := (56320 <=? u)%N && (u <? 57344)%N.

(** The characters of a literal; an escaped surrogate pair is one code
    point. *)
Fixpoint decode (ps : list Piece) : string :=
  match ps with
  | [] => ""
  | PChar c :: rest => String c (decode rest)
  | PUnit hi :: rest =>
      match rest with
      | PUnit lo :: rest' =>
          if is_high hi && is_low lo
          then utf8 (65536 + (hi - 55296) * 1024 + (lo - 56320)) ++ decode rest'
          else utf8 hi ++ decode rest
      | _ => utf8 hi ++ decode rest
      end
  end.

Definition lex_string (s : string) : option (string * string) :=
  match lex_string_body s with
  | Some (ps, rest) => Some (decode ps, rest)
  | None => None
  end.

(** Defining a property: a key already present keeps its place. *)
Fixpoint obj_set (k : string) (v : Json) (m : list (string * Json))
  : list (string * Json) :=
  match m with
  | [] => [(k, v)]
  | (k', v') :: rest =>
      if (k =? k')%string then (k, v) :: rest
      else (k', v') :: obj_set k v rest
  end.

Definition keyword (kw : string) (v : Json) (s : string) : option (Json * string) :=
  if String.prefix kw s
  then Some (v, String.substring (String.length kw)
                                 (String.length s - String.length kw) s)
  else None.

Fixpoint parse_value (fuel : nat) (s : string) {struct fuel}
  : option (Json * string) :=
  match fuel with
  | O => None
  | S f =>
      match skip_ws s with
      | EmptyString => None
      | String c r =>
          if Ascii.eqb c "{"%char then
            match after_char "}"%char (skip_ws r) with
            | Some r' => Some (JObject [], r')
            | None =>
                match parse_members f r [] with
                | Some (m, r') => Some (JObject m, r')
                | None => None
                end
            end
          else if Ascii.eqb c "["%char then
            match after_char "]"%char (skip_ws r) with
            | Some r' => Some (JArray [], r')
            | None =>
                match parse_elements f r with
                | Some (l, r') => Some (JArray l, r')
                | None => None
                end
            end
          else if Ascii.eqb c (ascii_of_nat 34) then
            match lex_string r with
            | Some (str, r') => Some (JString str, r')
            | None => None
            end
          else if Ascii.eqb c "t"%char then keyword "true" (JBool true) (String c r)
          else if Ascii.eqb c "f"%char then keyword "false" (JBool false) (String c r)
          else if Ascii.eqb c "n"%char then keyword "null" JNull (String c r)
          else
            match lex_number (String c r) with
            | Some (lit, r') => Some (JNumber lit, r')
            | None => None
            end
      end
  end

with parse_elements (fuel : nat) (s : string) {struct fuel}
  : option (list Json * string) :=
  match fuel with
  | O => None
  | S f =>
      match parse_value f s with
      | None => None
      | Some (v, r) =>
          match skip_ws r with
          | String c r' =>
              if Ascii.eqb c ","%char then
                match parse_elements f r' with
                | Some (l, r'') => Some (v :: l, r'')
                | None => None
                end
              else if Ascii.eqb c "]"%char then Some ([v], r')
              else None
          | EmptyString => None
          end
      end
  end

with parse_members (fuel : nat) (s : string) (acc : list (string * Json))
                   {struct fuel}
  : option (list (string * Json) * string) :=
  match fuel with
  | O => None
  | S f =>
      match skip_ws s with
      | String q r =>
          if Ascii.eqb q (ascii_of_nat 34) then
            match lex_string r with
            | None => None
            | Some (k, r1) =>
                match after_char ":"%char (skip_ws r1) with
                | Some r2 =>
                    match parse_value f r2 with
                    | None => None
                    | Some (v, r3) =>
                        match skip_ws r3 with
                        | String c r4 =>
                            if Ascii.eqb c ","%char
                            then parse_members f r4 (obj_set k v acc)
                            else if Ascii.eqb c "}"%char
                            then Some (obj_set k v acc, r4)
                            else None
                        | EmptyString => None
                        end
                    end
                | None => None
                end
            end
          else None
      | EmptyString => None
      end
  end.

(** Every call made with fuel [f] on a text [s] is followed, within two
    nested calls, by a call on a shorter text, so [2 * length s + 2]
    lets the parser read all of [s]. *)
Definition fuel_for (s : string) : nat := (2 * String.length s + 2)%nat.

(** [JSON.parse(text)]: one value, white space around it, nothing else;
    [None] is the SyntaxError. *)
Definition parse (text : string) : option Json :=
  match parse_value (fuel_for text) text with
  | Some (v, rest) =>
      match skip_ws rest with
      | EmptyString => Some v
      | _ => None
      end
  | None => None
  end.

End JSON.

(** ** Errors, effects and the monad of the methods *)

(** What a [throw] or a rejected promise carries. *)
Inductive Exn : Type :=
| Error (message : string)   (* new Error(message) *)
| ErrorOf (cause : Exn)      (* new Error(error): its message is String(error) *)
| TypeError                  (* a method called on null *)
| SyntaxError                (* JSON.parse on a text that is not JSON *)
| Rejected (reason : string) (* a failure of the HTTP collaborator *).

Inductive Completion (A : Type) : Type :=
| Normal (a : A)
| Throws (e : Exn).

Arguments Normal {A} a.
Arguments Throws {A} e.

(** The effects a caller can observe, in the order they happen. *)
Inductive Event : Type :=
| EFetch (url : string)      (* fetch(url) was called *)
| EWarn (message : string)   (* console.warn(message) was called *).

(** A response of the HTTP collaborator: [headers.get(name)] (null, here
    [None], for a header the response does not carry) and the body.
    [text()] resolves to the body, [json()] to [JSON.parse] of it. *)
Record Response : Type := mkResponse {
  headers_get : string -> option string;
  body : string
}.

(** The collaborator [fetch]: a URL to a response or to a rejection. *)
Definition Http : Type := string -> Completion Response.

(** The options argument of the factory, with the two properties the class
    reads; [None] is a property left out. *)
Record Options : Type := mkOptions {
  opt_output : option string;
  opt_includeMetadata : option bool
}.

(** [this.fetchOptions].  [None] is a property the object does not have:
    the object literal of the constructor has the four it lists and those
    spread from the options, the one of [filter] has [column] and
    [resource] only. *)
Record FetchOptions : Type := mkFetchOptions {
  fo_output : option string;
  fo_includeMetadata : option bool;
  fo_columns : option string;
  fo_filter : option string;
  fo_limit : option Z;
  fo_column : option string;
  fo_resource : option string
}.

(** [this.fetched]; [data] holds a parsed document, or the body text as a
    [JString]. *)
Record Fetched : Type := mkFetched {
  metadata : Json;
  fields : Json;
  data : Json
}.

Record CMSClient : Type := mkCMSClient {
  resourceId : string;
  isOutdated : JsVal;
  lastModified : JsVal;
  type : string;
  url : string;
  fetchOptions : FetchOptions;
  fetched : Fetched
}.

Record World : Type := mkWorld {
  this : CMSClient;
  trace : list Event
}.

(** A method body: it may change the object, extend the trace, and either
    completes normally or throws; what it did before throwing stays done
    (the state is returned in both cases). *)
Definition M (A : Type) : Type := World -> Completion A * World.

Definition ret {A} (a : A) : M A := fun w => (Normal a, w).

Definition bind {A B} (m : M A) (k : A -> M B) : M B :=
  fun w =>
    match m w with
    | (Normal a, w') => k a w'
    | (Throws e, w') => (Throws e, w')
    end.

Definition throw {A} (e : Exn) : M A := fun w => (Throws e, w).

Definition try_catch {A} (m : M A) (handler : Exn -> M A) : M A :=
  fun w =>
    match m w with
    | (Normal a, w') => (Normal a, w')
    | (Throws e, w') => handler e w'
    end.

Definition get_this : M CMSClient := fun w => (Normal (this w), w).

Definition update_this (f : CMSClient -> CMSClient) : M unit :=
  fun w => (Normal tt, mkWorld (f (this w)) (trace w)).

Definition emit (e : Event) : M unit :=
  fun w => (Normal tt, mkWorld (this w) (trace w ++ [e])).

Definition settle {A} (c : Completion A) : M A := fun w => (c, w).

Declare Scope js_scope.
Delimit Scope js_scope with js.
Notation "x <- m ;; k" := (bind m (fun x => k))
  (at level 61, m at next level, right associativity) : js_scope.
Notation "m ;; k" := (bind m (fun _ => k))
  (at level 61, right associativity) : js_scope.
Local Open Scope js_scope.

(** Assignments to single properties. *)
Definition set_url (u : string) (c : CMSClient) : CMSClient :=
  mkCMSClient (resourceId c) (isOutdated c) (lastModified c) (type c) u
              (fetchOptions c) (fetched c).

Definition set_fetchOptions (o : FetchOptions) (c : CMSClient) : CMSClient :=
  mkCMSClient (resourceId c) (isOutdated c) (lastModified c) (type c) (url c)
              o (fetched c).

Definition set_isOutdated (v : JsVal) (c : CMSClient) : CMSClient :=
  mkCMSClient (resourceId c) v (lastModified c) (type c) (url c)
              (fetchOptions c) (fetched c).

Definition set_lastModified (v : JsVal) (c : CMSClient) : CMSClient :=
  mkCMSClient (resourceId c) (isOutdated c) v (type c) (url c)
              (fetchOptions c) (fetched c).

Definition set_fetched (f : Fetched) (c : CMSClient) : CMSClient :=
  mkCMSClient (resourceId c) (isOutdated c) (lastModified c) (type c) (url c)
              (fetchOptions c) f.

Definition set_columns (v : string) (o : FetchOptions) : FetchOptions :=
  mkFetchOptions (fo_output o) (fo_includeMetadata o) (Some v) (fo_filter o)
                 (fo_limit o) (fo_column o) (fo_resource o).

Definition set_limit (n : Z) (o : FetchOptions) : FetchOptions :=
  mkFetchOptions (fo_output o) (fo_includeMetadata o) (fo_columns o)
                 (fo_filter o) (Some n) (fo_column o) (fo_resource o).

Definition set_fields (v : Json) (f : Fetched) : Fetched :=
  mkFetched (metadata f) v (data f).

Definition set_metadata (v : Json) (f : Fetched) : Fetched :=
  mkFetched v (fields f) (data f).

Definition set_data (v : Json) (f : Fetched) : Fetched :=
  mkFetched (metadata f) (fields f) v.

(** [headers.get(name)] as a JavaScript value. *)
Definition header_value (h : option string) : JsVal :=
  match h with
  | Some s => VStr s
  | None => VNull
  end.

(** ** The class [CMSClient] *)

(** [options?.output || 'json'] *)
Definition output_or_json (options : option Options) : string :=
  match options with
  | Some o => if truthy_str (opt_output o)
              then str_or_undefined (opt_output o) else "json"
  | None => "json"
  end.

(** [{ ...options, columns: '', filter: '', limit: 0, resource: '' }] *)
Definition initial_fetchOptions (options : option Options) : FetchOptions :=
  match options with
  | Some o => mkFetchOptions (opt_output o) (opt_includeMetadata o)
                             (Some "") (Some "") (Some 0) None (Some "")
  | None => mkFetchOptions None None (Some "") (Some "") (Some 0) None (Some "")
  end.

Definition host_resource : string := "https://data.cms.gov/resource/".

Definition constructor (id : string) (options : option Options) : CMSClient :=
  let type := output_or_json options in
  mkCMSClient id (VBool false) (VStr "") type
              (host_resource ++ id ++ "." ++ type)
              (initial_fetchOptions options)
              (mkFetched (JObject []) (JArray []) (JObject [])).

(** [select(columns)] *)
Definition select (columns : JsVal) : M unit :=
  match columns with
  | VStr s => update_this (fun c => set_fetchOptions (set_columns s (fetchOptions c)) c)
  | VArr l => update_this (fun c => set_fetchOptions (set_columns (join l) (fetchOptions c)) c)
  | _ => ret tt
  end.

Definition missing_params : string :=
  "Missing params: include column & resource to be filtered".

(** [filter(column, resource)]; an argument left out is [None]. *)
Definition filter (column resource : option string) : M unit :=
  if negb (truthy_str resource) || negb (truthy_str column)
  then throw (Error missing_params)
  else update_this
         (set_fetchOptions (mkFetchOptions None None None None None column resource)).

(** [limit(limitResource)] *)
Definition limit (limitResource : Z) : M unit :=
  if truthy (VNum limitResource)
  then update_this (fun c => set_fetchOptions (set_limit limitResource (fetchOptions c)) c)
  else ret tt.

Definition append_url (s : string) : M unit :=
  update_this (fun c => set_url (url c ++ s) c).

Definition limit_text (o : FetchOptions) : string :=
  match fo_limit o with
  | Some n => "$limit=" ++ num_to_string n
  | None => "$limit=undefined"
  end.

Definition _queryBuilder : M unit :=
  append_url "?" ;;
  c <- get_this ;;
  (if gt_zero (fo_limit (fetchOptions c))
   then append_url (limit_text (fetchOptions c))
   else ret tt) ;;
  c <- get_this ;;
  (if not_empty_string (fo_filter (fetchOptions c))
      && not_empty_string (fo_resource (fetchOptions c))
   then append_url ("&" ++ str_or_undefined (fo_column (fetchOptions c))
                        ++ "=" ++ str_or_undefined (fo_resource (fetchOptions c)))
   else ret tt) ;;
  c <- get_this ;;
  (if not_empty_string (fo_columns (fetchOptions c))
   then
     if ends_with_qmark (url c)
     then append_url ("$select=" ++ str_or_undefined (fo_columns (fetchOptions c)))
     else append_url ("&$select=" ++ str_or_undefined (fo_columns (fetchOptions c)))
   else ret tt).

Definition metadata_url (id : string) : string :=
  "https://data.cms.gov/api/views/metadata/v1/" ++ id.

(** [await fetch(url)]: the call is observed, then the promise settles. *)
Definition await_fetch (fetch : Http) (u : string) : M Response :=
  emit (EFetch u) ;; settle (fetch u).

(** [await response.json()] *)
Definition await_json (r : Response) : M Json :=
  match JSON.parse (body r) with
  | Some v => ret v
  | None => throw SyntaxError
  end.

(** [await response.text()] *)
Definition await_text (r : Response) : M string := ret (body r).

(** [JSON.parse(header.split(','))]: [split] is called on the header, which
    throws on null; [JSON.parse] converts its argument, an array, to a
    string, which joins the pieces with commas. *)
Definition parse_fields (header : option string) : M Json :=
  match header with
  | None => throw TypeError
  | Some h =>
      match JSON.parse (to_string (VArr (split_comma h))) with
      | Some v => ret v
      | None => throw SyntaxError
      end
  end.

Definition _fetchResourceMetadata (fetch : Http) : M unit :=
  try_catch
    (c <- get_this ;;
     let metadataUrl := metadata_url (resourceId c) in
     response <- await_fetch fetch metadataUrl ;;
     v <- await_json response ;;
     update_this (fun c => set_fetched (set_metadata v (fetched c)) c))
    (fun error => throw (ErrorOf error)).

Definition _fetchResource (fetch : Http) : M unit :=
  try_catch
    (c <- get_this ;;
     resourceData <- await_fetch fetch (url c) ;;
     let headers := headers_get resourceData in
     v <- parse_fields (headers "x-soda2-fields") ;;
     update_this (fun c => set_fetched (set_fields v (fetched c)) c) ;;
     update_this (set_isOutdated (header_value (headers "x-soda2-data-out-of-date"))) ;;
     update_this (set_lastModified (header_value (headers "Last-Modified"))) ;;
     c <- get_this ;;
     (if truthy_flag (fo_includeMetadata (fetchOptions c))
      then _fetchResourceMetadata fetch
      else ret tt) ;;
     c <- get_this ;;
     if (type c =? "csv")%string
     then
       t <- await_text resourceData ;;
       update_this (fun c => set_fetched (set_data (JString t) (fetched c)) c)
     else
       v <- await_json resourceData ;;
       update_this (fun c => set_fetched (set_data v (fetched c)) c))
    (fun error => throw (ErrorOf error)).

Definition warning : string := "Data is outdated".

(** [get()].  The test [!this.fetched] is on an object, which is truthy, so
    its branch is never taken. *)
Definition get (fetch : Http) : M Fetched :=
  _queryBuilder ;;
  _fetchResource fetch ;;
  c <- get_this ;;
  (if negb (truthy (isOutdated c))
   then emit (EWarn warning)
   else ret tt) ;;
  c <- get_this ;;
  ret (fetched c).

(** [createClient(resourceId, options)] *)
Definition createClient (id : JsVal) (options : option Options)
  : Completion CMSClient :=
  match id with
  | VStr s =>
      if negb (truthy id)
      then Throws (Error ("Invalid argument: " ++ to_string id))
      else Normal (constructor s options)
  | _ => Throws (Error ("Invalid argument: " ++ to_string id))
  end.

(** A chain of calls on an object, from an empty trace. *)
Definition run {A} (m : M A) (c : CMSClient) : Completion A * World :=
  m (mkWorld c []).

Definition client_after {A} (m : M A) (c : CMSClient) : CMSClient :=
  this (snd (run m c)).

(** ** The text one run of the composer appends

    These follow the three tests of [_queryBuilder] and are used to state
    what it does to the stored URL. *)

Definition limit_part (o : FetchOptions) : string :=
  if gt_zero (fo_limit o) then limit_text o else "".

Definition filter_part (o : FetchOptions) : string :=
  if not_empty_string (fo_filter o) && not_empty_string (fo_resource o)
  then "&" ++ str_or_undefined (fo_column o) ++ "=" ++ str_or_undefined (fo_resource o)
  else "".

Definition select_part (before : string) (o : FetchOptions) : string :=
  if not_empty_string (fo_columns o)
  then (if ends_with_qmark before then "$select=" else "&$select=")
         ++ str_or_undefined (fo_columns o)
  else "".

Definition query_text (o : FetchOptions) : string :=
  let head := "?" ++ limit_part o ++ filter_part o in
  head ++ select_part head o.

(** The [console.warn] messages of a trace, and its [fetch] calls. *)
Fixpoint warnings (t : list Event) : list string :=
  match t with
  | [] => []
  | EWarn m :: rest => m :: warnings rest
  | EFetch _ :: rest => warnings rest
  end.

Fixpoint fetches (t : list Event) : list string :=
  match t with
  | [] => []
  | EFetch u :: rest => u :: fetches rest
  | EWarn _ :: rest => fetches rest
  end.

(** ** Collaborators and clients used in the examples *)

Definition quote : string := String (ascii_of_nat 34) "".

(** The text [["a","b","c"]], a JSON array of three names. *)
Definition fields_json_text : string :=
  "[" ++ quote ++ "a" ++ quote ++ "," ++ quote ++ "b" ++ quote ++ ","
      ++ quote ++ "c" ++ quote ++ "]".

(** The text [[{"a":1}]]. *)
Definition rows_text : string := "[{" ++ quote ++ "a" ++ quote ++ ":1}]".

Definition headers_of (fields_header : option string) (out_of_date : option string)
  : string -> option string :=
  fun name =>
    if (name =? "x-soda2-fields")%string then fields_header
    else if (name =? "x-soda2-data-out-of-date")%string then out_of_date
    else None.

(** A collaborator that answers every request with the same response. *)
Definition always (r : Response) : Http := fun _ => Normal r.

(** A collaborator whose every request fails. *)
Definition offline : Http := fun _ => Throws (Rejected "network down").

(** A collaborator that answers a metadata request with [m] and every
    other request with [d]. *)
Definition serving (d m : Response) : Http :=
  fun u => if String.prefix "https://data.cms.gov/api/views/metadata/" u
           then Normal m else Normal d.

Definition client_abc : CMSClient := constructor "abc" None.

Definition client_abc_csv : CMSClient :=
  constructor "abc" (Some (mkOptions (Some "csv") None)).

Definition client_abc_metadata : CMSClient :=
  constructor "abc" (Some (mkOptions None (Some true))).

(** ** What a [get()] that resolves leaves behind

    [get()] on the object [c] requests [requested_url c].  With the response
    [resp], the fields [fv], the metadata [mv] (when asked for) and the
    parsed body [dv] (when the format is not csv) the result, the object and
    the trace are the following. *)

Definition requested_url (c : CMSClient) : string :=
  url c ++ query_text (fetchOptions c).

Definition wants_metadata (c : CMSClient) : bool :=
  truthy_flag (fo_includeMetadata (fetchOptions c)).

Definition is_csv (c : CMSClient) : bool := (type c =? "csv")%string.

Definition out_of_date (resp : Response) : JsVal :=
  header_value (headers_get resp "x-soda2-data-out-of-date").

Definition result_of (c : CMSClient) (resp : Response) (fv mv dv : Json) : Fetched :=
  mkFetched (if wants_metadata c then mv else metadata (fetched c))
            fv
            (if is_csv c then JString (body resp) else dv).

Definition client_of (c : CMSClient) (resp : Response) (fv mv dv : Json)
  : CMSClient :=
  mkCMSClient (resourceId c)
              (out_of_date resp)
              (header_value (headers_get resp "Last-Modified"))
              (type c) (requested_url c) (fetchOptions c)
              (result_of c resp fv mv dv).

Definition trace_of (c : CMSClient) (t : list Event) (resp : Response)
  : list Event :=
  (t ++ [EFetch (requested_url c)]
     ++ (if wants_metadata c then [EFetch (metadata_url (resourceId c))] else [])
     ++ (if truthy (out_of_date resp) then [] else [EWarn warning]))%list.

(** The conditions under which [get()] resolves. *)
Definition resolves_with (fetch : Http) (c : CMSClient) (resp : Response)
           (fv mv dv : Json) : Prop :=
  fetch (requested_url c) = Normal resp
  /\ (exists h, headers_get resp "x-soda2-fields" = Some h
                /\ JSON.parse h = Some fv)
  /\ (wants_metadata c = true ->
      exists mresp, fetch (metadata_url (resourceId c)) = Normal mresp
                    /\ JSON.parse (body mresp) = Some mv)
  /\ (is_csv c = false -> JSON.parse (body resp) = Some dv).

(** Responses used in the examples: the fields header as a JSON array, as a
    comma-separated list, and as a quoted comma-separated list; a csv body. *)
Definition response_json_fields : Response :=
  mkResponse (headers_of (Some fields_json_text) None) rows_text.

Definition response_comma_fields : Response :=
  mkResponse (headers_of (Some "a,b,c") None) rows_text.

Definition response_quoted_fields : Response :=
  mkResponse (headers_of (Some (quote ++ "a,b,c" ++ quote)) None) rows_text.

Definition response_csv : Response :=
  mkResponse (headers_of (Some fields_json_text) None) "a,b,c".

Definition response_marked_outdated : Response :=
  mkResponse (headers_of (Some fields_json_text) (Some "true")) rows_text.

Definition response_bad_body : Response :=
  mkResponse (headers_of (Some fields_json_text) None) "not json".

Definition names_abc : Json := JArray [JString "a"; JString "b"; JString "c"].

Definition rows : Json := JArray [JObject [("a", JNumber "1")]].

(** ** Proof automation *)

(** Unfolds the monad and the assignments, and nothing of the strings. *)
Ltac run_methods :=
  cbv beta iota zeta delta
    [get _fetchResource _fetchResourceMetadata try_catch bind get_this
     await_fetch await_json await_text emit settle update_this ret throw
     this trace url set_url set_fetched set_isOutdated set_lastModified
     fetchOptions type resourceId fetched isOutdated lastModified
     set_fields set_metadata set_data metadata fields data].

Ltac run_methods_in H :=
  cbv beta iota zeta delta
    [get _fetchResource _fetchResourceMetadata try_catch bind get_this
     await_fetch await_json await_text emit settle update_this ret throw
     this trace url set_url set_fetched set_isOutdated set_lastModified
     fetchOptions type resourceId fetched isOutdated lastModified
     set_fields set_metadata set_data metadata fields data] in H.

(** ** Composed URLs

    The URL stored after a chain of builder calls [m] and one run of the
    composer, as [get()] would request it. *)

Definition composed_url (m : M unit) (c : CMSClient) : string :=
  url (client_after (m ;; _queryBuilder) c).


(** * Properties *)

(** ** Strings *)

Lemma append_assoc (a b c : string) : ((a ++ b) ++ c = a ++ (b ++ c))%string.
Proof.
  induction a as [|x a IH]; simpl.
  - reflexivity.
  - now rewrite IH.
Qed.

Lemma append_empty_r (s : string) : (s ++ "")%string = s.
Proof.
  induction s as [|x s IH]; simpl; [reflexivity | now rewrite IH].
Qed.

Lemma last_char_append (a b : string) :
  b <> "" -> last_char (a ++ b) = last_char b.
Proof.
  intros Hb. induction a as [|x a IH]; simpl.
  - reflexivity.
  - destruct (a ++ b)%string eqn:E.
    + destruct a; simpl in E; [contradiction | discriminate].
    + exact IH.
Qed.

Lemma ends_with_qmark_append (a b : string) :
  b <> "" -> ends_with_qmark (a ++ b) = ends_with_qmark b.
Proof.
  intros Hb. unfold ends_with_qmark. now rewrite last_char_append.
Qed.

(** Splitting at the commas and joining with commas gives the text back. *)
Lemma split_comma_not_nil (s : string) : split_comma s <> [].
Proof.
  destruct s as [|c s]; simpl.
  - discriminate.
  - destruct (Ascii.eqb c ","); [discriminate|].
    destruct (split_comma s); discriminate.
Qed.

Lemma join_cons (p : string) (ps : list string) :
  ps <> [] -> join (p :: ps) = (p ++ "," ++ join ps)%string.
Proof.
  destruct ps; [contradiction | reflexivity].
Qed.

Lemma join_split_comma (s : string) : join (split_comma s) = s.
Proof.
  induction s as [|c s IH]; simpl.
  - reflexivity.
  - destruct (Ascii.eqb_spec c ",") as [->|Hc].
    + rewrite join_cons by apply split_comma_not_nil.
      simpl. now rewrite IH.
    + destruct (split_comma s) as [|p ps] eqn:E.
      * now apply split_comma_not_nil in E.
      * destruct ps as [|p' ps].
        -- simpl in *. now rewrite IH.
        -- rewrite join_cons by discriminate.
           rewrite join_cons in IH by discriminate.
           simpl. now rewrite <- IH.
Qed.

(** ** The composer *)

(** One run appends [query_text] of the configuration to the stored URL,
    and does nothing else. *)
Lemma _queryBuilder_appends (w : World) :
  _queryBuilder w =
  (Normal tt,
   mkWorld (set_url (url (this w) ++ query_text (fetchOptions (this w))) (this w))
           (trace w)).
Proof.
  destruct w as [c t]. destruct c as [id od lm ty u o f].
  unfold _queryBuilder, query_text, limit_part, filter_part, select_part,
    bind, append_url, update_this, get_this, ret.
  cbn [this trace url fetchOptions set_url resourceId isOutdated lastModified
       type fetched].
  destruct (gt_zero (fo_limit o));
    cbn [this trace url fetchOptions set_url resourceId isOutdated
         lastModified type fetched];
    destruct (not_empty_string (fo_filter o) && not_empty_string (fo_resource o));
    cbn [this trace url fetchOptions set_url resourceId isOutdated
         lastModified type fetched];
    destruct (not_empty_string (fo_columns o));
    cbn [this trace url fetchOptions set_url resourceId isOutdated
         lastModified type fetched];
    repeat rewrite append_assoc; repeat rewrite append_empty_r.
  all: try reflexivity.
  all: rewrite (ends_with_qmark_append u) by (cbn [append]; discriminate).
  all: cbn [append].
  all: match goal with |- context [ends_with_qmark ?s] => destruct (ends_with_qmark s) end.
  all: unfold set_url; cbn [this trace url fetchOptions resourceId isOutdated
                            lastModified type fetched].
  all: repeat (first [rewrite append_assoc | progress cbn [append]]); reflexivity.
Qed.

(** ** The parser reads the whole text

    The fuel that [JSON.parse] gives the parser is enough: more fuel never
    changes a result, so a [None] of [JSON.parse] is a text that is not
    JSON. *)

Lemma skip_ws_length (s : string) :
  (String.length (JSON.skip_ws s) <= String.length s)%nat.
Proof.
  induction s as [|c s IH]; simpl; [lia|].
  destruct (JSON.is_ws c); simpl; lia.
Qed.

Lemma skip_ws_cons_length (s r : string) (c : ascii) :
  JSON.skip_ws s = String c r -> (String.length r < String.length s)%nat.
Proof.
  intros H. pose proof (skip_ws_length s) as L. rewrite H in L. simpl in L. lia.
Qed.

Lemma digits_length (s ds r : string) :
  JSON.digits s = (ds, r) -> (String.length r <= String.length s)%nat.
Proof.
  revert ds r. induction s as [|c s IH]; simpl; intros ds r H.
  - inversion H; subst; simpl; lia.
  - destruct (JSON.is_digit c).
    + destruct (JSON.digits s) as [ds' r'] eqn:E. inversion H; subst.
      specialize (IH _ _ eq_refl). lia.
    + inversion H; subst; simpl; lia.
Qed.

Lemma lex_int_length (s i r : string) :
  JSON.lex_int s = Some (i, r) -> (String.length r < String.length s)%nat.
Proof.
  unfold JSON.lex_int. destruct s as [|c s]; [discriminate|].
  destruct (Ascii.eqb c "0").
  - intros H; inversion H; subst; simpl; lia.
  - destruct (JSON.is_digit c); [|discriminate].
    destruct (JSON.digits s) as [ds r'] eqn:E. intros H; inversion H; subst.
    apply digits_length in E. simpl; lia.
Qed.

Lemma after_char_length (c : ascii) (s r : string) :
  JSON.after_char c s = Some r -> String.length s = S (String.length r).
Proof.
  destruct s as [|c' s]; simpl; [discriminate|].
  destruct (Ascii.eqb c' c); [|discriminate]. intros H; now inversion H.
Qed.

Lemma lex_frac_length (s f r : string) :
  JSON.lex_frac s = Some (f, r) -> (String.length r <= String.length s)%nat.
Proof.
  unfold JSON.lex_frac.
  destruct (JSON.after_char "." s) as [rest|] eqn:Ea.
  - apply after_char_length in Ea.
    destruct (JSON.digits rest) as [ds r'] eqn:E. apply digits_length in E.
    destruct ds; [discriminate|]. intros H; inversion H; subst. lia.
  - intros H; inversion H; subst; lia.
Qed.

Lemma lex_exp_length (s e r : string) :
  JSON.lex_exp s = Some (e, r) -> (String.length r <= String.length s)%nat.
Proof.
  unfold JSON.lex_exp. destruct s as [|c s].
  - intros H; inversion H; subst; simpl; lia.
  - destruct (Ascii.eqb c "e" || Ascii.eqb c "E").
    + destruct s as [|d s'].
      * simpl. discriminate.
      * destruct (Ascii.eqb d "+" || Ascii.eqb d "-").
        -- destruct (JSON.digits s') as [ds r'] eqn:E. apply digits_length in E.
           destruct ds; [discriminate|]. intros H; inversion H; subst. simpl; lia.
        -- destruct (JSON.digits (String d s')) as [ds r'] eqn:E.
           apply digits_length in E.
           destruct ds; [discriminate|]. intros H; inversion H; subst.
           simpl in *; lia.
    + intros H; inversion H; subst; simpl; lia.
Qed.

Lemma lex_number_length (s lit r : string) :
  JSON.lex_number s = Some (lit, r) -> (String.length r < String.length s)%nat.
Proof.
  unfold JSON.lex_number.
  assert (Hsign : forall sign s1,
             (String.length s1 <= String.length s)%nat ->
             match JSON.lex_int s1 with
             | Some (i, s2) =>
                 match JSON.lex_frac s2 with
                 | Some (f, s3) =>
                     match JSON.lex_exp s3 with
                     | Some (e, s4) => Some ((sign ++ i ++ f ++ e)%string, s4)
                     | None => None
                     end
                 | None => None
                 end
             | None => None
             end = Some (lit, r) ->
             (String.length r < String.length s)%nat).
  { intros sign s1 L.
    destruct (JSON.lex_int s1) as [[i s2]|] eqn:Ei; [|discriminate].
    destruct (JSON.lex_frac s2) as [[f s3]|] eqn:Ef; [|discriminate].
    destruct (JSON.lex_exp s3) as [[e s4]|] eqn:Ee; [|discriminate].
    intros H; inversion H; subst.
    apply lex_int_length in Ei. apply lex_frac_length in Ef.
    apply lex_exp_length in Ee. lia. }
  destruct (JSON.after_char "-" s) as [s'|] eqn:Ea.
  - apply after_char_length in Ea. apply (Hsign "-" s'). lia.
  - apply (Hsign "" s). lia.
Qed.

Lemma lex_string_body_length (n : nat) (s : string) (ps : list JSON.Piece)
      (r : string) :
  (String.length s <= n)%nat ->
  JSON.lex_string_body s = Some (ps, r) ->
  (String.length r < String.length s)%nat.
Proof.
  revert s ps r. induction n as [|n IH]; intros s ps r L H.
  - destruct s; [discriminate | simpl in L; lia].
  - destruct s as [|c s]; [discriminate|]. simpl in H. simpl in L.
    destruct (Ascii.eqb c (ascii_of_nat 34)).
    { inversion H; subst. simpl; lia. }
    destruct (Ascii.eqb c (ascii_of_nat 92)).
    { destruct s as [|e r1]; [discriminate|]. simpl in L.
      destruct (JSON.simple_escape e).
      - destruct (JSON.lex_string_body r1) as [[ps' r']|] eqn:E; [|discriminate].
        inversion H; subst. apply IH in E; [|lia]. simpl; lia.
      - destruct (Ascii.eqb e "u"); [|discriminate].
        destruct r1 as [|h1 [|h2 [|h3 [|h4 r2]]]]; try discriminate.
        destruct (JSON.hex4 h1 h2 h3 h4); [|discriminate].
        destruct (JSON.lex_string_body r2) as [[ps' r']|] eqn:E; [|discriminate].
        inversion H; subst. simpl in L. apply IH in E; [|lia]. simpl; lia. }
    destruct (nat_of_ascii c <? 32)%nat; [discriminate|].
    destruct (JSON.lex_string_body s) as [[ps' r']|] eqn:E; [|discriminate].
    inversion H; subst. apply IH in E; [|lia]. simpl; lia.
Qed.

Lemma lex_string_length (s k r : string) :
  JSON.lex_string s = Some (k, r) -> (String.length r < String.length s)%nat.
Proof.
  unfold JSON.lex_string.
  destruct (JSON.lex_string_body s) as [[ps r']|] eqn:E; [|discriminate].
  intros H; inversion H; subst.
  now apply (lex_string_body_length (String.length s)) in E.
Qed.

Lemma substring_length (n m : nat) (s : string) :
  (String.length (String.substring n m s) <= m)%nat.
Proof.
  revert n m. induction s as [|c s IH]; intros n m.
  - destruct n, m; simpl; lia.
  - destruct n as [|n].
    + destruct m as [|m]; simpl; [lia|]. specialize (IH 0%nat m). lia.
    + simpl. apply IH.
Qed.

Lemma keyword_length (kw : string) (v v' : Json) (s r : string) :
  kw <> "" -> s <> "" ->
  JSON.keyword kw v s = Some (v', r) -> (String.length r < String.length s)%nat.
Proof.
  intros Hkw Hs. unfold JSON.keyword.
  destruct (String.prefix kw s); [|discriminate].
  intros H; inversion H; subst.
  pose proof (substring_length (String.length kw)
                (String.length s - String.length kw) s) as L.
  destruct kw; [contradiction|]. destruct s; [contradiction|]. simpl in *. lia.
Qed.

(** A value, a list of elements and a list of members each consume some of
    the text. *)
Lemma parse_consumes (f : nat) :
  (forall s v r, JSON.parse_value f s = Some (v, r) ->
                 (String.length r < String.length s)%nat)
  /\ (forall s l r, JSON.parse_elements f s = Some (l, r) ->
                    (String.length r < String.length s)%nat)
  /\ (forall s acc m r, JSON.parse_members f s acc = Some (m, r) ->
                        (String.length r < String.length s)%nat).
Proof.
  induction f as [|f (IHv & IHe & IHm)].
  - repeat split; intros; discriminate.
  - split; [|split].
    + intros s v r H. cbn [JSON.parse_value] in H.
      pose proof (skip_ws_length s) as Ls.
      destruct (JSON.skip_ws s) as [|c r0] eqn:Es; [discriminate|].
      cbn [String.length] in Ls.
      destruct (Ascii.eqb c "{").
      { destruct (JSON.after_char "}" (JSON.skip_ws r0)) as [r'|] eqn:Ea.
        - inversion H; subst. apply after_char_length in Ea.
          pose proof (skip_ws_length r0). lia.
        - destruct (JSON.parse_members f r0 []) as [[m r']|] eqn:Em; [|discriminate].
          inversion H; subst. apply IHm in Em. lia. }
      destruct (Ascii.eqb c "[").
      { destruct (JSON.after_char "]" (JSON.skip_ws r0)) as [r'|] eqn:Ea.
        - inversion H; subst. apply after_char_length in Ea.
          pose proof (skip_ws_length r0). lia.
        - destruct (JSON.parse_elements f r0) as [[l r']|] eqn:Ee; [|discriminate].
          inversion H; subst. apply IHe in Ee. lia. }
      destruct (Ascii.eqb c (ascii_of_nat 34)).
      { destruct (JSON.lex_string r0) as [[str r']|] eqn:El; [|discriminate].
        inversion H; subst. apply lex_string_length in El. lia. }
      destruct (Ascii.eqb c "t").
      { apply keyword_length in H; [simpl in H; lia | discriminate | discriminate]. }
      destruct (Ascii.eqb c "f").
      { apply keyword_length in H; [simpl in H; lia | discriminate | discriminate]. }
      destruct (Ascii.eqb c "n").
      { apply keyword_length in H; [simpl in H; lia | discriminate | discriminate]. }
      destruct (JSON.lex_number (String c r0)) as [[lit r']|] eqn:En; [|discriminate].
      inversion H; subst. apply lex_number_length in En. simpl in En. lia.
    + intros s l r H. cbn [JSON.parse_elements] in H.
      destruct (JSON.parse_value f s) as [[v r0]|] eqn:Ev; [|discriminate].
      apply IHv in Ev.
      pose proof (skip_ws_length r0) as Ls.
      destruct (JSON.skip_ws r0) as [|c r1] eqn:Es; [discriminate|].
      cbn [String.length] in Ls.
      destruct (Ascii.eqb c ",").
      { destruct (JSON.parse_elements f r1) as [[l' r']|] eqn:Ee; [|discriminate].
        inversion H; subst. apply IHe in Ee. lia. }
      destruct (Ascii.eqb c "]"); [|discriminate].
      inversion H; subst. lia.
    + intros s acc m r H. cbn [JSON.parse_members] in H.
      pose proof (skip_ws_length s) as Ls.
      destruct (JSON.skip_ws s) as [|q r0] eqn:Es; [discriminate|].
      cbn [String.length] in Ls.
      destruct (Ascii.eqb q (ascii_of_nat 34)); [|discriminate].
      destruct (JSON.lex_string r0) as [[k r1]|] eqn:El; [|discriminate].
      apply lex_string_length in El.
      destruct (JSON.after_char ":" (JSON.skip_ws r1)) as [r2|] eqn:Ea; [|discriminate].
      apply after_char_length in Ea. pose proof (skip_ws_length r1) as L1.
      destruct (JSON.parse_value f r2) as [[v r3]|] eqn:Ev; [|discriminate].
      apply IHv in Ev.
      pose proof (skip_ws_length r3) as L3.
      destruct (JSON.skip_ws r3) as [|c r4] eqn:E3; [discriminate|].
      cbn [String.length] in L3.
      destruct (Ascii.eqb c ",").
      { apply IHm in H. lia. }
      destruct (Ascii.eqb c "}"); [|discriminate].
      inversion H; subst. lia.
Qed.

(** Fuel beyond what the text needs changes nothing. *)
Lemma parse_fuel_stable (f : nat) :
  (forall s, (2 * String.length s + 1 <= f)%nat ->
             JSON.parse_value (S f) s = JSON.parse_value f s)
  /\ (forall s, (2 * String.length s + 2 <= f)%nat ->
                JSON.parse_elements (S f) s = JSON.parse_elements f s)
  /\ (forall s acc, (2 * String.length s + 2 <= f)%nat ->
                    JSON.parse_members (S f) s acc = JSON.parse_members f s acc).
Proof.
  induction f as [|f (IHv & IHe & IHm)].
  - repeat split; intros; lia.
  - destruct (parse_consumes f) as (Cv & _ & _).
    split; [|split].
    + intros s L. remember (S f) as g eqn:Eg. cbn [JSON.parse_value]. subst g.
      pose proof (skip_ws_length s) as Ls.
      destruct (JSON.skip_ws s) as [|c r0] eqn:Es;
        [cbn [JSON.parse_value]; now rewrite Es|].
      cbn [String.length] in Ls.
      rewrite IHm by lia. rewrite IHe by lia.
      cbn [JSON.parse_value]. now rewrite Es.
    + intros s L. remember (S f) as g eqn:Eg. cbn [JSON.parse_elements]. subst g.
      rewrite IHv by lia.
      destruct (JSON.parse_value f s) as [[v r0]|] eqn:Ev;
        [|cbn [JSON.parse_elements]; now rewrite Ev].
      apply Cv in Ev as Lv.
      pose proof (skip_ws_length r0) as Ls.
      destruct (JSON.skip_ws r0) as [|c r1] eqn:Es;
        [cbn [JSON.parse_elements]; now rewrite Ev, Es|].
      cbn [String.length] in Ls.
      rewrite IHe by lia.
      cbn [JSON.parse_elements]. now rewrite Ev, Es.
    + intros s acc L. remember (S f) as g eqn:Eg. cbn [JSON.parse_members]. subst g.
      pose proof (skip_ws_length s) as Ls.
      destruct (JSON.skip_ws s) as [|q r0] eqn:Es;
        [cbn [JSON.parse_members]; now rewrite Es|].
      cbn [String.length] in Ls.
      destruct (Ascii.eqb q (ascii_of_nat 34)) eqn:Eq;
        [|cbn [JSON.parse_members]; now rewrite Es, Eq].
      destruct (JSON.lex_string r0) as [[k r1]|] eqn:El;
        [|cbn [JSON.parse_members]; now rewrite Es, Eq, El].
      apply lex_string_length in El as Ll.
      destruct (JSON.after_char ":" (JSON.skip_ws r1)) as [r2|] eqn:Ea;
        [|cbn [JSON.parse_members]; now rewrite Es, Eq, El, Ea].
      apply after_char_length in Ea as La. pose proof (skip_ws_length r1) as L1.
      rewrite IHv by lia.
      destruct (JSON.parse_value f r2) as [[v r3]|] eqn:Ev;
        [|cbn [JSON.parse_members]; now rewrite Es, Eq, El, Ea, Ev].
      apply Cv in Ev as Lv.
      pose proof (skip_ws_length r3) as L3.
      destruct (JSON.skip_ws r3) as [|c r4] eqn:E3;
        [cbn [JSON.parse_members]; now rewrite Es, Eq, El, Ea, Ev, E3|].
      cbn [String.length] in L3.
      rewrite IHm by lia.
      cbn [JSON.parse_members]. now rewrite Es, Eq, El, Ea, Ev, E3.
Qed.

(** A result found with some fuel is found with more. *)
Lemma parse_fuel_mono (f : nat) :
  (forall s x, JSON.parse_value f s = Some x -> JSON.parse_value (S f) s = Some x)
  /\ (forall s x, JSON.parse_elements f s = Some x ->
                  JSON.parse_elements (S f) s = Some x)
  /\ (forall s acc x, JSON.parse_members f s acc = Some x ->
                      JSON.parse_members (S f) s acc = Some x).
Proof.
  induction f as [|f (IHv & IHe & IHm)].
  - repeat split; intros; discriminate.
  - split; [|split].
    + intros s x H. remember (S f) as g eqn:Eg. cbn [JSON.parse_value].
      subst g. cbn [JSON.parse_value] in H.
      destruct (JSON.skip_ws s) as [|c r0]; [discriminate|].
      destruct (Ascii.eqb c "{").
      { destruct (JSON.after_char "}" (JSON.skip_ws r0)); [exact H|].
        destruct (JSON.parse_members f r0 []) as [[m r']|] eqn:Em; [|discriminate].
        now rewrite (IHm _ _ _ Em). }
      destruct (Ascii.eqb c "[").
      { destruct (JSON.after_char "]" (JSON.skip_ws r0)); [exact H|].
        destruct (JSON.parse_elements f r0) as [[l r']|] eqn:Ee; [|discriminate].
        now rewrite (IHe _ _ Ee). }
      exact H.
    + intros s x H. remember (S f) as g eqn:Eg. cbn [JSON.parse_elements].
      subst g. cbn [JSON.parse_elements] in H.
      destruct (JSON.parse_value f s) as [[v r0]|] eqn:Ev; [|discriminate].
      rewrite (IHv _ _ Ev).
      destruct (JSON.skip_ws r0) as [|c r1]; [discriminate|].
      destruct (Ascii.eqb c ","); [|exact H].
      destruct (JSON.parse_elements f r1) as [[l r']|] eqn:Ee; [|discriminate].
      now rewrite (IHe _ _ Ee).
    + intros s acc x H. remember (S f) as g eqn:Eg. cbn [JSON.parse_members].
      subst g. cbn [JSON.parse_members] in H.
      destruct (JSON.skip_ws s) as [|q r0]; [discriminate|].
      destruct (Ascii.eqb q (ascii_of_nat 34)); [|discriminate].
      destruct (JSON.lex_string r0) as [[k r1]|]; [|discriminate].
      destruct (JSON.after_char ":" (JSON.skip_ws r1)) as [r2|]; [|discriminate].
      destruct (JSON.parse_value f r2) as [[v r3]|] eqn:Ev; [|discriminate].
      rewrite (IHv _ _ Ev).
      destruct (JSON.skip_ws r3) as [|c r4]; [discriminate|].
      destruct (Ascii.eqb c ","); [|exact H].
      now apply IHm.
Qed.

Lemma parse_value_more_fuel (k : nat) (s : string) :
  JSON.parse_value (JSON.fuel_for s + k) s = JSON.parse_value (JSON.fuel_for s) s.
Proof.
  induction k as [|k IH].
  - now rewrite Nat.add_0_r.
  - rewrite Nat.add_succ_r.
    destruct (parse_fuel_stable (JSON.fuel_for s + k)) as (Hv & _ & _).
    rewrite Hv by (unfold JSON.fuel_for; lia). exact IH.
Qed.

Lemma parse_value_mono (k f : nat) (s : string) (x : Json * string) :
  JSON.parse_value f s = Some x -> JSON.parse_value (f + k) s = Some x.
Proof.
  intros H. induction k as [|k IH].
  - now rewrite Nat.add_0_r.
  - rewrite Nat.add_succ_r. now apply parse_fuel_mono.
Qed.

(** Whatever the fuel, a value read from the text is the one [JSON.parse]
    reads with its own: [None] from [JSON.parse] is not a lack of fuel. *)
Lemma parse_value_any_fuel (f : nat) (s : string) (x : Json * string) :
  JSON.parse_value f s = Some x ->
  JSON.parse_value (JSON.fuel_for s) s = Some x.
Proof.
  intros H.
  apply (parse_value_mono (JSON.fuel_for s)) in H.
  rewrite Nat.add_comm, parse_value_more_fuel in H. exact H.
Qed.

Lemma parse_none_any_fuel (s : string) :
  JSON.parse s = None ->
  forall f v r, JSON.parse_value f s = Some (v, r) -> JSON.skip_ws r <> "".
Proof.
  unfold JSON.parse. intros H f v r Hf.
  rewrite (parse_value_any_fuel _ _ _ Hf) in H.
  destruct (JSON.skip_ws r); [discriminate H | discriminate].
Qed.

(** A comma-separated list of names is not JSON, with any fuel. *)
Lemma comma_list_is_not_json (f : nat) :
  JSON.parse "a,b,c" = None /\ JSON.parse_value f "a,b,c" = None.
Proof.
  split; [reflexivity|].
  destruct (JSON.parse_value f "a,b,c") as [x|] eqn:E; [|reflexivity].
  apply parse_value_any_fuel in E. vm_compute in E. discriminate E.
Qed.

(** ** The builder methods *)

Lemma truthy_str_some (s : string) : truthy_str (Some s) = true <-> s <> "".
Proof.
  unfold truthy_str. destruct (String.eqb_spec s ""); simpl; split; intros;
    congruence.
Qed.

(** A successful [filter] leaves [column] and [resource] as the only
    properties of the configuration. *)
Lemma filter_replaces_fetchOptions (column resource : option string) (w : World) :
  truthy_str column = true -> truthy_str resource = true ->
  filter column resource w =
  (Normal tt,
   mkWorld (set_fetchOptions
              (mkFetchOptions None None None None None column resource) (this w))
           (trace w)).
Proof.
  intros Hc Hr. unfold filter. rewrite Hc, Hr. reflexivity.
Qed.

(** What the composer appends after a successful [filter]: no [$limit], the
    filter pair, and a [$select] of the text [undefined]. *)
Lemma query_text_after_filter (column resource : string) :
  column <> "" -> resource <> "" ->
  query_text (mkFetchOptions None None None None None (Some column) (Some resource))
  = ("?&" ++ column ++ "=" ++ resource
       ++ (if ends_with_qmark resource then "" else "&") ++ "$select=undefined")%string.
Proof.
  intros Hc Hr.
  unfold query_text, limit_part, filter_part, select_part; cbn [fo_limit fo_filter
    fo_resource fo_columns fo_column gt_zero not_empty_string str_or_undefined].
  destruct (String.eqb_spec resource "") as [E|_]; [contradiction|].
  cbn [negb andb].
  replace (ends_with_qmark ("?" ++ "" ++ "&" ++ column ++ "=" ++ resource))
    with (ends_with_qmark resource).
  - destruct (ends_with_qmark resource);
      repeat (first [rewrite append_assoc | progress cbn [append]]); reflexivity.
  - symmetry.
    replace ("?" ++ "" ++ "&" ++ column ++ "=" ++ resource)%string
      with (("?&" ++ column ++ "=") ++ resource)%string
      by (repeat (first [rewrite append_assoc | progress cbn [append]]); reflexivity).
    now apply ends_with_qmark_append.
Qed.

(** C1 (code does otherwise).  A fresh client on which [limit(5)], then
    [filter("state","CA")], then [select("name")] are called composes a URL
    whose query is [?&state=CA&$select=name]: the [filter] call replaced the
    configuration and the limit went with it, so the text
    [$limit=5&state=CA&$select=name] is not in the URL. *)
Theorem limit_filter_select_url_lacks_limit :
  (forall id : string,
      url (client_after (limit 5 ;; filter (Some "state") (Some "CA") ;;
                         select (VStr "name") ;; _queryBuilder)
                        (constructor id None))
      = (host_resource ++ id ++ ".json" ++ "?&state=CA&$select=name")%string)
  /\ contains "$limit=5&state=CA&$select=name"
       (url (client_after (limit 5 ;; filter (Some "state") (Some "CA") ;;
                           select (VStr "name") ;; _queryBuilder) client_abc))
     = false
  /\ contains "$limit"
       (url (client_after (limit 5 ;; filter (Some "state") (Some "CA") ;;
                           select (VStr "name") ;; _queryBuilder) client_abc))
     = false.
Proof.
  split; [|split; vm_compute; reflexivity].
  intros id. unfold client_after, run, bind.
  cbn [limit truthy Z.eqb negb select update_this].
  rewrite filter_replaces_fetchOptions by reflexivity. cbn iota.
  rewrite _queryBuilder_appends.
  cbn -[append host_resource].
  unfold host_resource.
  repeat (first [rewrite append_assoc | progress cbn [append]]). reflexivity.
Qed.

(** The same three calls with [filter] first keep all three parameters. *)
Lemma filter_limit_select_url :
  url (client_after (filter (Some "state") (Some "CA") ;; limit 5 ;;
                     select (VStr "name") ;; _queryBuilder) client_abc)
  = "https://data.cms.gov/resource/abc.json?$limit=5&state=CA&$select=name".
Proof. vm_compute. reflexivity. Qed.

(** C2 (code does otherwise).  On a client created with [includeMetadata]
    set, [limit(5)], [select("name")] and then [filter("state","CA")] leave
    a configuration without columns, limit and metadata flag; [get()] then
    requests a URL without [$limit] and makes no metadata request, but the
    URL ends in [&$select=undefined]: a [$select] is emitted although
    [select] was not called again. *)
Theorem filter_then_get_selects_undefined :
  let c := client_after (limit 5 ;; select (VStr "name") ;;
                         filter (Some "state") (Some "CA")) client_abc_metadata in
  fo_columns (fetchOptions c) = None
  /\ fo_limit (fetchOptions c) = None
  /\ fo_includeMetadata (fetchOptions c) = None
  /\ url (client_after _queryBuilder c)
     = "https://data.cms.gov/resource/abc.json?&state=CA&$select=undefined"
  /\ fetches (trace (snd (run (get (always (mkResponse
                                   (headers_of (Some fields_json_text) None)
                                   rows_text))) c)))
     = ["https://data.cms.gov/resource/abc.json?&state=CA&$select=undefined"].
Proof. vm_compute. repeat split; reflexivity. Qed.

(** C3, as the code has it.  One run of the composer completes normally,
    makes no call and leaves the configuration as it was; it appends to the
    stored URL the text [query_text] of the configuration: a question mark,
    then at most one [$limit], one filter pair and one [$select].  A second
    run on the unchanged state appends that text once more. *)
Theorem _queryBuilder_appends_each_run (c : CMSClient) (t : list Event) :
  _queryBuilder (mkWorld c t)
  = (Normal tt, mkWorld (set_url (url c ++ query_text (fetchOptions c)) c) t)
  /\ (_queryBuilder ;; _queryBuilder) (mkWorld c t)
     = (Normal tt,
        mkWorld (set_url (url c ++ query_text (fetchOptions c)
                                ++ query_text (fetchOptions c)) c) t)
  /\ query_text (fetchOptions c)
     = ("?" ++ limit_part (fetchOptions c) ++ filter_part (fetchOptions c)
            ++ select_part ("?" ++ limit_part (fetchOptions c)
                                ++ filter_part (fetchOptions c)) (fetchOptions c))%string.
Proof.
  split; [|split].
  - apply _queryBuilder_appends.
  - unfold bind. rewrite _queryBuilder_appends. cbn [this trace].
    rewrite _queryBuilder_appends. cbn [this trace].
    destruct c; unfold set_url; cbn [url fetchOptions resourceId isOutdated
      lastModified type fetched]. now rewrite append_assoc.
  - unfold query_text. cbv zeta.
    repeat (first [rewrite append_assoc | progress cbn [append]]). reflexivity.
Qed.

(** C3, as stated, fails: on a fresh client with [limit(5)] the second run
    of the composer turns [...abc.json?$limit=5] into
    [...abc.json?$limit=5?$limit=5]. *)
Lemma _queryBuilder_twice_differs :
  url (client_after (limit 5 ;; _queryBuilder) client_abc)
  = "https://data.cms.gov/resource/abc.json?$limit=5"
  /\ url (client_after (limit 5 ;; _queryBuilder ;; _queryBuilder) client_abc)
     = "https://data.cms.gov/resource/abc.json?$limit=5?$limit=5"
  /\ ~ (forall c : CMSClient,
          url (client_after (_queryBuilder ;; _queryBuilder) c)
          = url (client_after _queryBuilder c)).
Proof.
  split; [vm_compute; reflexivity|].
  split; [vm_compute; reflexivity|].
  intros H. specialize (H (client_after (limit 5) client_abc)).
  vm_compute in H. discriminate H.
Qed.

(** C6.  [filter] throws exactly when the column or the value is missing or
    empty, and then the object and the trace are as before the call; with
    both present it completes, and the stored pair is the new one whatever
    the configuration held before. *)
Theorem filter_throws_or_replaces (column resource : option string) (w : World) :
  (truthy_str column && truthy_str resource = false ->
   filter column resource w = (Throws (Error missing_params), w))
  /\ (truthy_str column && truthy_str resource = true ->
      exists w',
        filter column resource w = (Normal tt, w')
        /\ fo_column (fetchOptions (this w')) = column
        /\ fo_resource (fetchOptions (this w')) = resource
        /\ trace w' = trace w
        /\ url (this w') = url (this w)).
Proof.
  split; intros H.
  - unfold filter.
    destruct (truthy_str column), (truthy_str resource); simpl in *;
      try discriminate; reflexivity.
  - apply andb_true_iff in H as [Hc Hr].
    rewrite (filter_replaces_fetchOptions _ _ w Hc Hr).
    eexists; split; [reflexivity|]. destruct w as [c t]; destruct c.
    repeat split.
Qed.

(** C7.  For a non-empty string identifier and options that name no output
    format (or name json), the client the factory returns composes the base
    resource URL followed by one question mark. *)
Theorem fresh_client_url (id : string) (options : option Options) :
  id <> "" ->
  output_or_json options = "json" ->
  exists c,
    createClient (VStr id) options = Normal c
    /\ url c = ("https://data.cms.gov/resource/" ++ id ++ ".json")%string
    /\ url (client_after _queryBuilder c)
       = ("https://data.cms.gov/resource/" ++ id ++ ".json" ++ "?")%string.
Proof.
  intros Hid Hout.
  exists (constructor id options). split; [|split].
  - unfold createClient, truthy.
    destruct (String.eqb_spec id ""); [contradiction | reflexivity].
  - unfold constructor; cbn [url]. now rewrite Hout.
  - unfold client_after, run. rewrite _queryBuilder_appends.
    cbn [snd this trace]. unfold constructor, set_url; cbn [url fetchOptions].
    rewrite Hout.
    assert (Hq : query_text (initial_fetchOptions options) = "?")
      by (destruct options; reflexivity).
    rewrite Hq. unfold host_resource.
    repeat (first [rewrite append_assoc | progress cbn [append]]). reflexivity.
Qed.

Lemma fresh_client_url_witness :
  exists c,
    createClient (VStr "abc") None = Normal c
    /\ url c = "https://data.cms.gov/resource/abc.json"
    /\ url (client_after _queryBuilder c)
       = "https://data.cms.gov/resource/abc.json?".
Proof.
  apply (fresh_client_url "abc" None); [discriminate | reflexivity].
Defined.

(** C8.  [select] on a list of column names does what [select] on their
    comma-joined string does, so the stored columns and the composed URL
    are the same; in particular for [["a","b"]] and ["a,b"]. *)
Theorem select_array_as_joined_string (l : list string) (w : World) :
  select (VArr l) w = select (VStr (join l)) w
  /\ (select (VArr l) ;; _queryBuilder) w
     = (select (VStr (join l)) ;; _queryBuilder) w
  /\ select (VArr ["a"; "b"]) w = select (VStr "a,b") w
  /\ fo_columns (fetchOptions (this (snd (select (VArr l) w)))) = Some (join l).
Proof.
  repeat split.
Qed.

(** A failed [filter] after a successful one: the first pair is still there. *)
Lemma filter_empty_value_keeps_pair :
  let w := snd (run (filter (Some "state") (Some "CA")) client_abc) in
  filter (Some "col") (Some "") w = (Throws (Error missing_params), w)
  /\ filter (Some "") (Some "val") w = (Throws (Error missing_params), w)
  /\ filter None None w = (Throws (Error missing_params), w)
  /\ fo_column (fetchOptions (this w)) = Some "state"
  /\ fo_resource (fetchOptions (this w)) = Some "CA".
Proof. vm_compute. repeat split; reflexivity. Qed.

(** ** Fetching *)

Lemma warnings_app (t1 t2 : list Event) :
  warnings (t1 ++ t2) = (warnings t1 ++ warnings t2)%list.
Proof.
  induction t1 as [|[u|m] t1 IH]; simpl; [reflexivity | exact IH | now rewrite IH].
Qed.

Lemma fetches_app (t1 t2 : list Event) :
  fetches (t1 ++ t2) = (fetches t1 ++ fetches t2)%list.
Proof.
  induction t1 as [|[u|m] t1 IH]; simpl; [reflexivity | now rewrite IH | exact IH].
Qed.

(** The array of pieces converts back to the header text, so the fields are
    [JSON.parse] of the header as it was sent. *)
Lemma parse_fields_is_parse (h : string) :
  parse_fields (Some h) =
  match JSON.parse h with
  | Some v => ret v
  | None => throw SyntaxError
  end.
Proof.
  unfold parse_fields, to_string. now rewrite join_split_comma.
Qed.

Lemma get_after_compose (fetch : Http) (c : CMSClient) (t : list Event) :
  get fetch (mkWorld c t)
  = (_fetchResource fetch ;;
     c <- get_this ;;
     (if negb (truthy (isOutdated c)) then emit (EWarn warning) else ret tt) ;;
     c <- get_this ;;
     ret (fetched c))
      (mkWorld (set_url (requested_url c) c) t).
Proof.
  unfold get. unfold bind at 1. now rewrite _queryBuilder_appends.
Qed.

Lemma get_resolves (fetch : Http) (c : CMSClient) (t : list Event)
      (resp : Response) (fv mv dv : Json) :
  resolves_with fetch c resp fv mv dv ->
  get fetch (mkWorld c t)
  = (Normal (result_of c resp fv mv dv),
     mkWorld (client_of c resp fv mv dv) (trace_of c t resp)).
Proof.
  intros (Hf & (h & Hh & Hfv) & Hm & Hd).
  rewrite get_after_compose.
  unfold client_of, trace_of, result_of, out_of_date, wants_metadata, is_csv in *.
  destruct c as [id od lm ty u o f]. run_methods.
  cbn [url fetchOptions type resourceId fetched] in Hf, Hm, Hd.
  rewrite Hf. run_methods. rewrite Hh, parse_fields_is_parse, Hfv. run_methods.
  destruct (truthy_flag (fo_includeMetadata o)).
  - destruct (Hm eq_refl) as (mresp & Hmf & Hmv). rewrite Hmf. run_methods.
    rewrite Hmv. run_methods.
    destruct (ty =? "csv")%string.
    + destruct (truthy (header_value (headers_get resp "x-soda2-data-out-of-date")));
        cbn [negb]; run_methods; repeat rewrite <- app_assoc;
        rewrite ?app_nil_r; reflexivity.
    + rewrite (Hd eq_refl). run_methods.
      destruct (truthy (header_value (headers_get resp "x-soda2-data-out-of-date")));
        cbn [negb]; run_methods; repeat rewrite <- app_assoc;
        rewrite ?app_nil_r; reflexivity.
  - destruct (ty =? "csv")%string.
    + destruct (truthy (header_value (headers_get resp "x-soda2-data-out-of-date")));
        cbn [negb]; run_methods; repeat rewrite <- app_assoc;
        rewrite ?app_nil_r; reflexivity.
    + rewrite (Hd eq_refl). run_methods.
      destruct (truthy (header_value (headers_get resp "x-soda2-data-out-of-date")));
        cbn [negb]; run_methods; repeat rewrite <- app_assoc;
        rewrite ?app_nil_r; reflexivity.
Qed.

(** A [get()] that resolves met the conditions of [resolves_with]. *)
Lemma get_normal_inv (fetch : Http) (c : CMSClient) (t : list Event)
      (r : Fetched) (w' : World) :
  get fetch (mkWorld c t) = (Normal r, w') ->
  exists resp fv mv dv, resolves_with fetch c resp fv mv dv.
Proof.
  intros H. rewrite get_after_compose in H.
  unfold resolves_with, wants_metadata, is_csv.
  destruct c as [id od lm ty u o f]. run_methods_in H. run_methods.
  destruct (fetch _) as [resp|e] eqn:Hf; run_methods_in H; [|discriminate H].
  exists resp.
  destruct (headers_get resp "x-soda2-fields") as [h|] eqn:Hh;
    [rewrite parse_fields_is_parse in H | unfold parse_fields in H];
    run_methods_in H; [|discriminate H].
  destruct (JSON.parse h) as [fv|] eqn:Hfv; run_methods_in H; [|discriminate H].
  exists fv.
  destruct (truthy_flag (fo_includeMetadata o)) eqn:Hm.
  - destruct (fetch (metadata_url id)) as [mresp|e] eqn:Hmf; run_methods_in H;
      [|discriminate H].
    destruct (JSON.parse (body mresp)) as [mv|] eqn:Hmv; run_methods_in H;
      [|discriminate H].
    exists mv.
    destruct (ty =? "csv")%string eqn:Hty.
    + exists JNull. repeat split; eauto. discriminate.
    + destruct (JSON.parse (body resp)) as [dv|] eqn:Hdv; run_methods_in H;
        [|discriminate H].
      exists dv. repeat split; eauto.
  - exists JNull.
    destruct (ty =? "csv")%string eqn:Hty.
    + exists JNull. repeat split; eauto; discriminate.
    + destruct (JSON.parse (body resp)) as [dv|] eqn:Hdv; run_methods_in H;
        [|discriminate H].
      exists dv. repeat split; eauto. discriminate.
Qed.

(** Every [get()] that resolves is described by [result_of], [client_of]
    and [trace_of]. *)
Lemma get_normal_result (fetch : Http) (c : CMSClient) (t : list Event)
      (r : Fetched) (w' : World) :
  get fetch (mkWorld c t) = (Normal r, w') ->
  exists resp fv mv dv,
    resolves_with fetch c resp fv mv dv
    /\ r = result_of c resp fv mv dv
    /\ w' = mkWorld (client_of c resp fv mv dv) (trace_of c t resp).
Proof.
  intros H. destruct (get_normal_inv _ _ _ _ _ H) as (resp & fv & mv & dv & Hr).
  exists resp, fv, mv, dv. split; [exact Hr|].
  rewrite (get_resolves _ _ _ _ _ _ _ Hr) in H. now inversion H.
Qed.

(** C5.  When the request for the data fails, [get()] rejects with an error
    made from the failure; the only call of the collaborator is that
    request, whether or not [includeMetadata] is set, and the result object
    is as it was. *)
Theorem get_rejects_when_request_fails (fetch : Http) (c : CMSClient)
        (t : list Event) (e : Exn) :
  fetch (requested_url c) = Throws e ->
  exists w',
    get fetch (mkWorld c t) = (Throws (ErrorOf e), w')
    /\ trace w' = (t ++ [EFetch (requested_url c)])%list
    /\ fetched (this w') = fetched c.
Proof.
  intros Hf. rewrite get_after_compose.
  destruct c as [id od lm ty u o f]. run_methods. rewrite Hf. run_methods.
  eexists. split; [reflexivity|]. split; reflexivity.
Qed.

Lemma get_rejects_when_request_fails_witness :
  exists w',
    get offline (mkWorld client_abc_metadata [])
    = (Throws (ErrorOf (Rejected "network down")), w')
    /\ trace w' = [EFetch (requested_url client_abc_metadata)]
    /\ fetched (this w') = fetched client_abc_metadata.
Proof.
  apply (get_rejects_when_request_fails offline client_abc_metadata []
           (Rejected "network down")).
  reflexivity.
Defined.

(** A body that is not JSON is another matter: the request succeeded, and
    the metadata request has been made by the time [get()] rejects. *)
Lemma get_bad_body_rejects_after_metadata :
  fst (run (get (serving response_bad_body response_json_fields))
           client_abc_metadata)
  = Throws (ErrorOf SyntaxError)
  /\ fetches (trace (snd (run (get (serving response_bad_body response_json_fields))
                              client_abc_metadata)))
     = ["https://data.cms.gov/resource/abc.json?";
        "https://data.cms.gov/api/views/metadata/v1/abc"].
Proof. vm_compute. split; reflexivity. Qed.

(** C4, as the code has it.  When the response carries the header
    [x-soda2-fields] with the JSON array text [["a","b","c"]] and the body
    [[{"a":1}]], [get()] on a client whose format is not csv resolves to a
    result whose fields are the list a, b, c and whose data is the parsed
    body. *)
Theorem get_json_array_fields (c : CMSClient) (t : list Event) :
  type c <> "csv" ->
  exists r w',
    get (always response_json_fields) (mkWorld c t) = (Normal r, w')
    /\ fields r = names_abc
    /\ data r = rows
    /\ JSON.parse (body response_json_fields) = Some (data r).
Proof.
  intros Hty.
  assert (Hr : resolves_with (always response_json_fields) c
                             response_json_fields names_abc rows rows).
  { unfold resolves_with, always. split; [reflexivity|]. split; [|split].
    - exists fields_json_text. split; reflexivity.
    - intros _. exists response_json_fields. split; reflexivity.
    - intros _. reflexivity. }
  rewrite (get_resolves _ _ _ _ _ _ _ Hr).
  do 2 eexists. split; [reflexivity|]. unfold result_of, is_csv.
  destruct (String.eqb_spec (type c) "csv") as [E|_]; [contradiction|].
  repeat split.
Qed.

Lemma get_json_array_fields_witness :
  exists r w',
    get (always response_json_fields) (mkWorld client_abc []) = (Normal r, w')
    /\ fields r = names_abc
    /\ data r = rows
    /\ JSON.parse (body response_json_fields) = Some (data r).
Proof.
  apply (get_json_array_fields client_abc []). discriminate.
Defined.

(** C4, as stated, fails: with the header value [a,b,c] the text handed to
    [JSON.parse] is [a,b,c], which is not JSON, and [get()] rejects. *)
Lemma get_comma_fields_rejects :
  fst (run (get (always response_comma_fields)) client_abc)
  = Throws (ErrorOf SyntaxError)
  /\ ~ (exists r w',
          run (get (always response_comma_fields)) client_abc = (Normal r, w')
          /\ fields r = names_abc /\ data r = rows).
Proof.
  split; [vm_compute; reflexivity|].
  intros (r & w' & H & _). vm_compute in H. discriminate H.
Qed.

(** With the quotes as part of the header value the fields are one string,
    not a list. *)
Lemma get_quoted_fields_is_string :
  exists w',
    run (get (always response_quoted_fields)) client_abc
    = (Normal (mkFetched (JObject []) (JString "a,b,c") rows), w').
Proof. eexists. vm_compute. reflexivity. Qed.

(** C9.  In the result of [get()] the data is the body of the response as
    text when the format is csv, and [JSON.parse] of the body otherwise. *)
Theorem get_data_text_or_parsed (fetch : Http) (c : CMSClient) (t : list Event)
        (r : Fetched) (w' : World) :
  get fetch (mkWorld c t) = (Normal r, w') ->
  exists resp,
    fetch (requested_url c) = Normal resp
    /\ (type c = "csv" -> data r = JString (body resp))
    /\ (type c <> "csv" -> JSON.parse (body resp) = Some (data r)).
Proof.
  intros H.
  destruct (get_normal_result _ _ _ _ _ H)
    as (resp & fv & mv & dv & (Hf & _ & _ & Hd) & -> & _).
  exists resp. split; [exact Hf|].
  unfold result_of, is_csv in *; cbn [data].
  destruct (String.eqb_spec (type c) "csv") as [E|E]; split; intros E';
    try contradiction; auto.
Qed.

Lemma get_data_text_or_parsed_witness :
  (exists resp,
      always response_csv (requested_url client_abc_csv) = Normal resp
      /\ (type client_abc_csv = "csv" ->
          data (mkFetched (JObject []) names_abc (JString "a,b,c"))
          = JString (body resp))
      /\ (type client_abc_csv <> "csv" ->
          JSON.parse (body resp)
          = Some (data (mkFetched (JObject []) names_abc (JString "a,b,c")))))
  /\ (exists resp,
         always response_json_fields (requested_url client_abc) = Normal resp
         /\ (type client_abc = "csv" ->
             data (mkFetched (JObject []) names_abc rows) = JString (body resp))
         /\ (type client_abc <> "csv" ->
             JSON.parse (body resp)
             = Some (data (mkFetched (JObject []) names_abc rows)))).
Proof.
  split.
  - eapply (get_data_text_or_parsed (always response_csv) client_abc_csv []).
    vm_compute. reflexivity.
  - eapply (get_data_text_or_parsed (always response_json_fields) client_abc []).
    vm_compute. reflexivity.
Defined.

(** C10.  A [get()] that resolves warns once, with [Data is outdated], when
    the out-of-date header of the response is missing or empty, and does not
    warn when the header has a value. *)
Theorem get_warns_when_not_outdated (fetch : Http) (c : CMSClient)
        (t : list Event) (r : Fetched) (w' : World) :
  get fetch (mkWorld c t) = (Normal r, w') ->
  exists resp,
    fetch (requested_url c) = Normal resp
    /\ isOutdated (this w') = out_of_date resp
    /\ warnings (trace w')
       = (warnings t ++ if truthy (out_of_date resp) then [] else [warning])%list.
Proof.
  intros H.
  destruct (get_normal_result _ _ _ _ _ H)
    as (resp & fv & mv & dv & (Hf & _) & _ & ->).
  exists resp. split; [exact Hf|]. split; [reflexivity|].
  cbn [trace]. unfold trace_of. rewrite !warnings_app.
  destruct (wants_metadata c), (truthy (out_of_date resp)); reflexivity.
Qed.

Lemma get_warns_when_not_outdated_witness :
  (exists resp,
      always response_json_fields (requested_url client_abc) = Normal resp
      /\ VNull = out_of_date resp
      /\ [warning]
         = (warnings [] ++ if truthy (out_of_date resp) then [] else [warning])%list)
  /\ (exists resp,
         always response_marked_outdated (requested_url client_abc) = Normal resp
         /\ VStr "true" = out_of_date resp
         /\ []
            = (warnings [] ++ if truthy (out_of_date resp) then [] else [warning])%list).
Proof.
  split.
  - exact (get_warns_when_not_outdated (always response_json_fields) client_abc []
             (mkFetched (JObject []) names_abc rows)
             (mkWorld (client_of client_abc response_json_fields names_abc JNull rows)
                      [EFetch (requested_url client_abc); EWarn warning])
             eq_refl).
  - exact (get_warns_when_not_outdated (always response_marked_outdated) client_abc []
             (mkFetched (JObject []) names_abc rows)
             (mkWorld (client_of client_abc response_marked_outdated names_abc JNull rows)
                      [EFetch (requested_url client_abc)])
             eq_refl).
Defined.

(** The header value [false] is a non-empty string, hence truthy: no
    warning then either. *)
Lemma get_header_false_does_not_warn :
  warnings (trace (snd (run (get (always (mkResponse
                               (headers_of (Some fields_json_text) (Some "false"))
                               rows_text))) client_abc)))
  = [].
Proof. vm_compute. reflexivity. Qed.

(** * Further properties of the class *)

(** ** Numbers in a URL *)

Lemma ends_with_qmark_cons (c : ascii) (s : string) :
  ends_with_qmark (String c s)
  = match s with
    | EmptyString => Ascii.eqb c "?"
    | _ => ends_with_qmark s
    end.
Proof.
  unfold ends_with_qmark. destruct s; reflexivity.
Qed.

Lemma digits_do_not_end_with_qmark (d : Decimal.uint) :
  ends_with_qmark (NilEmpty.string_of_uint d) = false.
Proof.
  induction d as [|d IH|d IH|d IH|d IH|d IH|d IH|d IH|d IH|d IH|d IH];
    [reflexivity | ..];
    cbn [NilEmpty.string_of_uint]; rewrite ends_with_qmark_cons;
    destruct (NilEmpty.string_of_uint d); [reflexivity | exact IH | reflexivity
      | exact IH | reflexivity | exact IH | reflexivity | exact IH | reflexivity
      | exact IH | reflexivity | exact IH | reflexivity | exact IH | reflexivity
      | exact IH | reflexivity | exact IH | reflexivity | exact IH].
Qed.

Lemma nilzero_digits_no_qmark (d : Decimal.uint) :
  ends_with_qmark (NilZero.string_of_uint d) = false.
Proof.
  destruct d; [reflexivity | ..];
    apply (digits_do_not_end_with_qmark (_ d)).
Qed.

Lemma num_to_string_no_qmark (n : Z) :
  ends_with_qmark (num_to_string n) = false.
Proof.
  unfold num_to_string.
  destruct (Z.to_int n) as [d|d]; cbn [NilZero.string_of_int].
  - apply nilzero_digits_no_qmark.
  - rewrite ends_with_qmark_cons.
    destruct (NilZero.string_of_uint d) eqn:E; [reflexivity|].
    rewrite <- E. apply nilzero_digits_no_qmark.
Qed.

(** ** The factory and the constructor *)


(** X2.  The constructor takes the format from the [output] option when it
    is a non-empty string and [json] otherwise; the stored URL is the
    resource URL with the identifier and that format, and the metadata flag
    is the one of the options. *)
Theorem constructor_format_and_url (id : string) (options : option Options) :
  let c := constructor id options in
  url c = (host_resource ++ id ++ "." ++ type c)%string
  /\ type c <> ""
  /\ type c = match options with
              | Some (mkOptions (Some (String a out)) _) => String a out
              | _ => "json"
              end
  /\ fo_includeMetadata (fetchOptions c)
     = match options with
       | Some o => opt_includeMetadata o
       | None => None
       end
  /\ fo_columns (fetchOptions c) = Some ""
  /\ fo_limit (fetchOptions c) = Some 0
  /\ query_text (fetchOptions c) = "?".
Proof.
  destruct options as [[[[|a out]|] im]|]; cbn; repeat split; discriminate.
Qed.

(** ** Chains of builder calls *)

Lemma run_bind_normal {A B} (m : M A) (k : A -> M B) (w w' : World) (a : A) :
  m w = (Normal a, w') -> (m ;; k a) w = k a w' /\ bind m k w = k a w'.
Proof.
  intros H. unfold bind. rewrite H. split; reflexivity.
Qed.

(** Without a [filter] call the composer emits the limit, when positive,
    and then the columns, when not empty. *)
Lemma query_text_unfiltered (o : FetchOptions) (n : Z) (cols : string) :
  fo_filter o = Some "" -> fo_limit o = Some n -> fo_columns o = Some cols ->
  query_text o
  = ("?" ++ (if (0 <? n)%Z then "$limit=" ++ num_to_string n else "")
         ++ (if (cols =? "")%string then ""
             else (if (0 <? n)%Z then "&" else "") ++ "$select=" ++ cols))%string.
Proof.
  intros Hf Hl Hc.
  unfold query_text, limit_part, filter_part, select_part, limit_text.
  rewrite Hf, Hl, Hc. cbn [not_empty_string gt_zero str_or_undefined].
  rewrite String.eqb_refl. cbn [negb andb].
  assert (E : ends_with_qmark ("?" ++ ("$limit=" ++ num_to_string n) ++ "") = false).
  { rewrite append_empty_r.
    change ("?" ++ "$limit=" ++ num_to_string n)%string
      with (("?$limit=") ++ num_to_string n)%string.
    destruct (num_to_string n) eqn:En; [reflexivity|].
    rewrite ends_with_qmark_append by discriminate.
    rewrite <- En. apply num_to_string_no_qmark. }
  destruct (0 <? n); destruct (cols =? "")%string; cbn [negb];
    rewrite ?E;
    repeat (first [rewrite append_assoc | rewrite append_empty_r
                  | progress cbn [append]]);
    reflexivity.
Qed.


Ltac run_builders :=
  unfold composed_url, client_after, run, bind, limit, select, filter,
    update_this, ret, truthy;
  cbn [this trace fst snd].





(** X5.  On a client just constructed, [select] with a string of columns
    makes the composed URL end in [?$select=] and the columns, without an
    ampersand; the empty string selects nothing and leaves the bare [?]. *)
Theorem select_composes_first_parameter
        (id : string) (options : option Options) (cols : string) :
  composed_url (select (VStr cols)) (constructor id options)
  = (url (constructor id options)
       ++ if (cols =? "")%string then "?" else "?$select=" ++ cols)%string.
Proof.
  run_builders.
  rewrite _queryBuilder_appends; cbn [snd this trace url set_url];
    unfold set_url; cbn [url fetchOptions set_fetchOptions].
  rewrite (query_text_unfiltered _ 0 cols) by (destruct options; reflexivity).
  cbn [Z.ltb Z.compare]. destruct (cols =? "")%string; reflexivity.
Qed.

(** X6.  [limit] and [select] can be called in either order: the result
    and the object are the same afterwards, for every argument. *)
Theorem limit_select_commute (n : Z) (v : JsVal) (w : World) :
  (limit n ;; select v) w = (select v ;; limit n) w.
Proof.
  destruct w as [c t]. destruct c as [rid od lm ty u o f].
  unfold bind, limit, select, truthy, update_this, ret.
  destruct (negb (n =? 0)); destruct v; reflexivity.
Qed.





(** X9.  A successful [filter] forgets every builder call made before it:
    an earlier [select], [limit] or [filter] followed by it leaves the
    object as the [filter] call alone does. *)
Theorem filter_forgets_earlier_calls
        (column value : string) (v : JsVal) (n : Z)
        (column0 value0 : string) (w : World) :
  column <> "" -> value <> "" -> column0 <> "" -> value0 <> "" ->
  let last := filter (Some column) (Some value) in
  (select v ;; last) w = last w
  /\ (limit n ;; last) w = last w
  /\ (filter (Some column0) (Some value0) ;; last) w = last w.
Proof.
  intros Hc Hv Hc0 Hv0 last. unfold last.
  destruct w as [c t]. destruct c as [rid od lm ty u o f].
  unfold bind.
  rewrite (filter_replaces_fetchOptions (Some column0) (Some value0))
    by (apply truthy_str_some; assumption).
  rewrite !filter_replaces_fetchOptions by (apply truthy_str_some; assumption).
  repeat split.
  - destruct v; cbn; rewrite ?filter_replaces_fetchOptions
      by (apply truthy_str_some; assumption); reflexivity.
  - unfold limit. destruct (truthy (VNum n)); cbn;
      rewrite ?filter_replaces_fetchOptions
        by (apply truthy_str_some; assumption); reflexivity.
Qed.

Lemma filter_forgets_earlier_calls_witness :
  let last := filter (Some "state") (Some "CA") in
  let w := mkWorld client_abc_metadata [] in
  (select (VStr "name") ;; last) w = last w
  /\ (limit 5 ;; last) w = last w
  /\ (filter (Some "city") (Some "LA") ;; last) w = last w.
Proof.
  apply (filter_forgets_earlier_calls "state" "CA" (VStr "name") 5 "city" "LA");
    discriminate.
Defined.

(** X10.  The builder methods make no request and no warning, and leave the
    identifier, the format, the stored URL, the result object and the two
    header fields of the object alone, whether they complete or throw;
    [select] and [limit] never throw. *)
Theorem builders_touch_only_the_configuration
        (v : JsVal) (n : Z) (column value : option string) (w : World) :
  let untouched (w' : World) :=
    trace w' = trace w
    /\ url (this w') = url (this w)
    /\ fetched (this w') = fetched (this w)
    /\ resourceId (this w') = resourceId (this w)
    /\ type (this w') = type (this w)
    /\ isOutdated (this w') = isOutdated (this w)
    /\ lastModified (this w') = lastModified (this w) in
  untouched (snd (select v w))
  /\ untouched (snd (limit n w))
  /\ untouched (snd (filter column value w))
  /\ fst (select v w) = Normal tt
  /\ fst (limit n w) = Normal tt.
Proof.
  destruct w as [c t]. destruct c as [rid od lm ty u o f].
  cbv zeta. unfold select, limit, filter, update_this, ret, throw.
  destruct v; destruct (truthy (VNum n));
    destruct (negb (truthy_str value) || negb (truthy_str column));
    cbn; repeat split.
Qed.

(** X11.  The last selection wins: a [select] with a string or an array
    after any other [select] leaves the object as it alone does.  A [select]
    with an argument that is neither a string nor an array changes
    nothing. *)
Theorem select_last_wins (v : JsVal) (s : string) (l : list string)
        (b : bool) (n : Z) (w : World) :
  (select v ;; select (VStr s)) w = select (VStr s) w
  /\ (select v ;; select (VArr l)) w = select (VArr l) w
  /\ select VUndefined w = (Normal tt, w)
  /\ select VNull w = (Normal tt, w)
  /\ select (VBool b) w = (Normal tt, w)
  /\ select (VNum n) w = (Normal tt, w).
Proof.
  destruct w as [c t]. destruct c as [rid od lm ty u o f].
  repeat split; destruct v; reflexivity.
Qed.

(** ** The requests of [get()] *)

Ltac run_methods_all :=
  cbv beta iota zeta delta
    [get _fetchResource _fetchResourceMetadata try_catch bind get_this
     await_fetch await_json await_text emit settle update_this ret throw
     this trace url set_url set_fetched set_isOutdated set_lastModified
     fetchOptions type resourceId fetched isOutdated lastModified
     set_fields set_metadata set_data metadata fields data] in *.

(** X12.  The metadata request goes to the metadata endpoint of the
    resource identifier, whatever the stored URL and the configuration are,
    and is made once.  When it completes, the response was received and its
    body is JSON, and only the metadata of the result object changed; when
    it throws, the object is as before and the error is a wrapped one. *)
Theorem _fetchResourceMetadata_outcome (fetch : Http) (w : World) :
  let address := metadata_url (resourceId (this w)) in
  let outcome := _fetchResourceMetadata fetch w in
  trace (snd outcome) = (trace w ++ [EFetch address])%list
  /\ (fst outcome = Normal tt ->
      exists response v,
        fetch address = Normal response
        /\ JSON.parse (body response) = Some v
        /\ this (snd outcome)
           = set_fetched (set_metadata v (fetched (this w))) (this w))
  /\ (forall e, fst outcome = Throws e ->
                this (snd outcome) = this w
                /\ exists cause, e = ErrorOf cause).
Proof.
  destruct w as [c t]. destruct c as [rid od lm ty u o f].
  cbv zeta. run_methods_all.
  destruct (fetch (metadata_url rid)) as [response|e0] eqn:Hf; run_methods_all.
  - destruct (JSON.parse (body response)) as [v|] eqn:Hv; run_methods_all.
    + split; [reflexivity|]. split; [|discriminate].
      intros _. exists response, v. repeat split; assumption.
    + split; [reflexivity|]. split; [discriminate|].
      intros e [= <-]. split; [reflexivity | eauto].
  - split; [reflexivity|]. split; [discriminate|].
    intros e [= <-]. split; [reflexivity | eauto].
Qed.

(** X13.  A [get()] that resolves made the data request first and then, if
    the client asks for metadata, the metadata request, and no other.  The
    metadata of the result is the parsed body of that second response;
    without the flag it is what the result object held before. *)
Theorem get_requests_data_then_metadata (fetch : Http) (c : CMSClient)
        (t : list Event) (r : Fetched) (w' : World) :
  get fetch (mkWorld c t) = (Normal r, w') ->
  fetches (trace w')
  = (fetches t ++ requested_url c
       :: if wants_metadata c then [metadata_url (resourceId c)] else [])%list
  /\ (wants_metadata c = false -> metadata r = metadata (fetched c))
  /\ (wants_metadata c = true ->
      exists response,
        fetch (metadata_url (resourceId c)) = Normal response
        /\ JSON.parse (body response) = Some (metadata r)).
Proof.
  intros H.
  destruct (get_normal_result _ _ _ _ _ H)
    as (resp & fv & mv & dv & (Hf & _ & Hm & _) & -> & ->).
  cbn [trace]. unfold trace_of, result_of. cbn [metadata].
  rewrite !fetches_app.
  destruct (wants_metadata c).
  - split; [|split; [discriminate|]].
    + destruct (truthy (out_of_date resp)); cbn; now rewrite ?app_nil_r.
    + intros _. destruct (Hm eq_refl) as (mresp & ? & ?). eauto.
  - split; [|split; [reflexivity | discriminate]].
    destruct (truthy (out_of_date resp)); cbn; now rewrite ?app_nil_r.
Qed.

Lemma get_requests_data_then_metadata_witness :
  fetches [EFetch "https://data.cms.gov/resource/abc.json?";
           EFetch "https://data.cms.gov/api/views/metadata/v1/abc";
           EWarn warning]
  = (fetches [] ++ requested_url client_abc_metadata
       :: if wants_metadata client_abc_metadata
          then [metadata_url (resourceId client_abc_metadata)] else [])%list
  /\ (wants_metadata client_abc_metadata = false ->
      metadata (mkFetched rows names_abc rows)
      = metadata (fetched client_abc_metadata))
  /\ (wants_metadata client_abc_metadata = true ->
      exists response,
        always response_json_fields
               (metadata_url (resourceId client_abc_metadata)) = Normal response
        /\ JSON.parse (body response)
           = Some (metadata (mkFetched rows names_abc rows))).
Proof.
  exact (get_requests_data_then_metadata
           (always response_json_fields) client_abc_metadata []
           (mkFetched rows names_abc rows)
           (mkWorld (client_of client_abc_metadata response_json_fields
                               names_abc rows rows)
                    [EFetch "https://data.cms.gov/resource/abc.json?";
                     EFetch "https://data.cms.gov/api/views/metadata/v1/abc";
                     EWarn warning])
           eq_refl).
Defined.

(** X14.  When the data request and the fields header are fine and the
    client asks for metadata, a failing metadata request makes [get()]
    reject with the failure wrapped twice, after both requests and without
    a warning.  The fields and the two header values are already stored by
    then; the data and the metadata of the result are not touched. *)
Theorem get_rejects_when_metadata_fails (fetch : Http) (c : CMSClient)
        (t : list Event) (resp : Response) (h : string) (fv : Json) (e : Exn) :
  fetch (requested_url c) = Normal resp ->
  headers_get resp "x-soda2-fields" = Some h ->
  JSON.parse h = Some fv ->
  wants_metadata c = true ->
  fetch (metadata_url (resourceId c)) = Throws e ->
  exists w',
    get fetch (mkWorld c t) = (Throws (ErrorOf (ErrorOf e)), w')
    /\ trace w' = (t ++ [EFetch (requested_url c);
                         EFetch (metadata_url (resourceId c))])%list
    /\ fetched (this w') = set_fields fv (fetched c)
    /\ isOutdated (this w') = out_of_date resp
    /\ lastModified (this w') = header_value (headers_get resp "Last-Modified").
Proof.
  intros Hf Hh Hfv Hm He. rewrite get_after_compose.
  unfold wants_metadata, out_of_date in *.
  destruct c as [rid od lm ty u o f]. run_methods.
  cbn [url fetchOptions type resourceId fetched] in Hf, Hm, He.
  rewrite Hf. run_methods. rewrite Hh, parse_fields_is_parse, Hfv. run_methods.
  rewrite Hm. run_methods. rewrite He. run_methods.
  eexists. split; [reflexivity|]. cbn [this trace fetched isOutdated lastModified].
  rewrite <- app_assoc. repeat split.
Qed.

Lemma get_rejects_when_metadata_fails_witness :
  exists w',
    get (fun u => if String.prefix "https://data.cms.gov/api/" u
                  then Throws (Rejected "no metadata")
                  else Normal response_json_fields)
        (mkWorld client_abc_metadata [])
    = (Throws (ErrorOf (ErrorOf (Rejected "no metadata"))), w')
    /\ trace w' = ([] ++ [EFetch (requested_url client_abc_metadata);
                          EFetch (metadata_url (resourceId client_abc_metadata))])%list
    /\ fetched (this w') = set_fields names_abc (fetched client_abc_metadata)
    /\ isOutdated (this w') = out_of_date response_json_fields
    /\ lastModified (this w')
       = header_value (headers_get response_json_fields "Last-Modified").
Proof.
  apply (get_rejects_when_metadata_fails _ client_abc_metadata []
           response_json_fields fields_json_text names_abc
           (Rejected "no metadata"));
    reflexivity.
Defined.

(** X15.  When the response has no fields header, or one that is not JSON,
    [get()] rejects with a wrapped TypeError, respectively SyntaxError,
    after the one data request: no metadata request, no warning, and the
    object changed in its stored URL only. *)
Theorem get_rejects_on_bad_fields_header (fetch : Http) (c : CMSClient)
        (t : list Event) (resp : Response) :
  fetch (requested_url c) = Normal resp ->
  match headers_get resp "x-soda2-fields" with
  | Some h => JSON.parse h = None
  | None => True
  end ->
  get fetch (mkWorld c t)
  = (Throws (ErrorOf (match headers_get resp "x-soda2-fields" with
                      | Some _ => SyntaxError
                      | None => TypeError
                      end)),
     mkWorld (set_url (requested_url c) c) (t ++ [EFetch (requested_url c)])).
Proof.
  intros Hf Hh. rewrite get_after_compose.
  destruct c as [rid od lm ty u o f]. run_methods.
  cbn [url fetchOptions type resourceId fetched] in Hf.
  rewrite Hf. run_methods.
  destruct (headers_get resp "x-soda2-fields") as [h|].
  - rewrite parse_fields_is_parse, Hh. reflexivity.
  - reflexivity.
Qed.

Lemma get_rejects_on_bad_fields_header_witness :
  get (always (mkResponse (headers_of None None) rows_text)) (mkWorld client_abc [])
  = (Throws (ErrorOf (match headers_get (mkResponse (headers_of None None) rows_text)
                                        "x-soda2-fields" with
                      | Some _ => SyntaxError
                      | None => TypeError
                      end)),
     mkWorld (set_url (requested_url client_abc) client_abc)
             ([] ++ [EFetch (requested_url client_abc)]))
  /\ get (always response_comma_fields) (mkWorld client_abc_metadata [])
     = (Throws (ErrorOf (match headers_get response_comma_fields
                                           "x-soda2-fields" with
                         | Some _ => SyntaxError
                         | None => TypeError
                         end)),
        mkWorld (set_url (requested_url client_abc_metadata) client_abc_metadata)
                ([] ++ [EFetch (requested_url client_abc_metadata)])).
Proof.
  split.
  - apply (get_rejects_on_bad_fields_header _ client_abc []
             (mkResponse (headers_of None None) rows_text)); [reflexivity | exact I].
  - apply (get_rejects_on_bad_fields_header _ client_abc_metadata []
             response_comma_fields); reflexivity.
Defined.

(** X16.  The fields of a result are [JSON.parse] of the fields header as
    the response carries it (splitting it at the commas changes nothing).
    The result is the result object of the client itself; the client then
    holds the Last-Modified header (null when missing) and the requested
    URL, and its configuration, identifier and format are as before. *)
Theorem get_result_and_object (fetch : Http) (c : CMSClient)
        (t : list Event) (r : Fetched) (w' : World) :
  get fetch (mkWorld c t) = (Normal r, w') ->
  exists resp h,
    fetch (requested_url c) = Normal resp
    /\ headers_get resp "x-soda2-fields" = Some h
    /\ JSON.parse h = Some (fields r)
    /\ r = fetched (this w')
    /\ lastModified (this w') = header_value (headers_get resp "Last-Modified")
    /\ url (this w') = requested_url c
    /\ fetchOptions (this w') = fetchOptions c
    /\ resourceId (this w') = resourceId c
    /\ type (this w') = type c.
Proof.
  intros H.
  destruct (get_normal_result _ _ _ _ _ H)
    as (resp & fv & mv & dv & (Hf & (h & Hh & Hfv) & _) & -> & ->).
  exists resp, h. repeat split; assumption.
Qed.

Lemma get_result_and_object_witness :
  exists resp h,
    always response_json_fields (requested_url client_abc) = Normal resp
    /\ headers_get resp "x-soda2-fields" = Some h
    /\ JSON.parse h = Some (fields (result_of client_abc response_json_fields
                                              names_abc JNull rows))
    /\ result_of client_abc response_json_fields names_abc JNull rows
       = fetched (client_of client_abc response_json_fields names_abc JNull rows)
    /\ lastModified (client_of client_abc response_json_fields names_abc JNull rows)
       = header_value (headers_get resp "Last-Modified")
    /\ url (client_of client_abc response_json_fields names_abc JNull rows)
       = requested_url client_abc
    /\ fetchOptions (client_of client_abc response_json_fields names_abc JNull rows)
       = fetchOptions client_abc
    /\ resourceId (client_of client_abc response_json_fields names_abc JNull rows)
       = resourceId client_abc
    /\ type (client_of client_abc response_json_fields names_abc JNull rows)
       = type client_abc.
Proof.
  exact (get_result_and_object
           (always response_json_fields) client_abc []
           (result_of client_abc response_json_fields names_abc JNull rows)
           (mkWorld (client_of client_abc response_json_fields names_abc JNull rows)
                    (trace_of client_abc [] response_json_fields))
           eq_refl).
Defined.

(** X17.  With the csv format the body is never parsed: whatever its text,
    [get()] resolves as soon as the request succeeds and the fields header
    is JSON (the client not asking for metadata), and the data is the
    text. *)
Theorem get_csv_takes_any_body (fetch : Http) (c : CMSClient) (t : list Event)
        (resp : Response) (h : string) (fv : Json) :
  type c = "csv" ->
  wants_metadata c = false ->
  fetch (requested_url c) = Normal resp ->
  headers_get resp "x-soda2-fields" = Some h ->
  JSON.parse h = Some fv ->
  exists w',
    get fetch (mkWorld c t)
    = (Normal (mkFetched (metadata (fetched c)) fv (JString (body resp))), w').
Proof.
  intros Hty Hm Hf Hh Hfv.
  assert (Hr : resolves_with fetch c resp fv JNull JNull).
  { unfold resolves_with. split; [exact Hf|]. split; [eauto|]. split.
    - rewrite Hm. discriminate.
    - unfold is_csv. rewrite Hty. discriminate. }
  rewrite (get_resolves _ _ _ _ _ _ _ Hr). eexists.
  unfold result_of, is_csv. rewrite Hm, Hty. reflexivity.
Qed.

Lemma get_csv_takes_any_body_witness :
  exists w',
    get (always (mkResponse (headers_of (Some fields_json_text) None)
                            "a;b;c {not json"))
        (mkWorld client_abc_csv [])
    = (Normal (mkFetched (metadata (fetched client_abc_csv)) names_abc
                         (JString (body (mkResponse
                                           (headers_of (Some fields_json_text) None)
                                           "a;b;c {not json")))), w').
Proof.
  apply (get_csv_takes_any_body _ client_abc_csv [] _ fields_json_text names_abc);
    reflexivity.
Defined.

(** Finishes a branch of the case analysis of [get()]. *)
Ltac close_get_branch :=
  cbn [fst snd this trace url fetchOptions resourceId type];
  rewrite ?warnings_app, ?fetches_app; cbn [warnings fetches];
  rewrite ?app_nil_r, <- ?app_assoc; cbn [app];
  repeat split; eauto.

(** X18.  Whatever the outcome of [get()], the object afterwards holds the
    requested URL as its stored URL and the configuration, identifier and
    format it had; the data request was made first.  A second [get()] on
    the object would therefore request the first URL with the query text
    appended once more. *)
Theorem get_stores_requested_url (fetch : Http) (c : CMSClient) (t : list Event) :
  let w' := snd (get fetch (mkWorld c t)) in
  url (this w') = requested_url c
  /\ fetchOptions (this w') = fetchOptions c
  /\ resourceId (this w') = resourceId c
  /\ type (this w') = type c
  /\ requested_url (this w')
     = (url c ++ query_text (fetchOptions c) ++ query_text (fetchOptions c))%string
  /\ exists rest, trace w' = (t ++ EFetch (requested_url c) :: rest)%list.
Proof.
  assert (G : forall w' : World,
             url (this w') = requested_url c ->
             fetchOptions (this w') = fetchOptions c ->
             requested_url (this w')
             = (url c ++ query_text (fetchOptions c)
                      ++ query_text (fetchOptions c))%string).
  { intros w' Hu Ho. unfold requested_url in *. rewrite Hu, Ho.
    now rewrite append_assoc. }
  cbv zeta.
  enough (E : url (this (snd (get fetch (mkWorld c t)))) = requested_url c
              /\ fetchOptions (this (snd (get fetch (mkWorld c t)))) = fetchOptions c
              /\ resourceId (this (snd (get fetch (mkWorld c t)))) = resourceId c
              /\ type (this (snd (get fetch (mkWorld c t)))) = type c
              /\ exists rest, trace (snd (get fetch (mkWorld c t)))
                              = (t ++ EFetch (requested_url c) :: rest)%list).
  { destruct E as (Hu & Ho & Hi & Hty & Ht). repeat split; auto. }
  clear G. rewrite get_after_compose.
  generalize (requested_url c) as u'. intros u'.
  destruct c as [rid od lm ty u o f]. run_methods.
  destruct (fetch u') as [resp|e]; run_methods; [|close_get_branch].
  destruct (headers_get resp "x-soda2-fields") as [h|];
    [rewrite parse_fields_is_parse | unfold parse_fields];
    run_methods; [|close_get_branch].
  destruct (JSON.parse h) as [fv|]; run_methods; [|close_get_branch].
  destruct (truthy_flag (fo_includeMetadata o)).
  - destruct (fetch (metadata_url rid)) as [mresp|e]; run_methods;
      [|close_get_branch].
    destruct (JSON.parse (body mresp)) as [mv|]; run_methods;
      [|close_get_branch].
    destruct (ty =? "csv")%string; run_methods.
    + destruct (truthy (header_value (headers_get resp "x-soda2-data-out-of-date")));
        cbn [negb]; run_methods; close_get_branch.
    + destruct (JSON.parse (body resp)) as [dv|]; run_methods;
        [|close_get_branch].
      destruct (truthy (header_value (headers_get resp "x-soda2-data-out-of-date")));
        cbn [negb]; run_methods; close_get_branch.
  - destruct (ty =? "csv")%string; run_methods.
    + destruct (truthy (header_value (headers_get resp "x-soda2-data-out-of-date")));
        cbn [negb]; run_methods; close_get_branch.
    + destruct (JSON.parse (body resp)) as [dv|]; run_methods;
        [|close_get_branch].
      destruct (truthy (header_value (headers_get resp "x-soda2-data-out-of-date")));
        cbn [negb]; run_methods; close_get_branch.
Qed.

(** X19.  A [get()] that rejects always rejects with a wrapped error, never
    with the bare failure; it has not warned, and it has made the data
    request alone or the data request and then the metadata request. *)
Theorem get_rejection_is_wrapped (fetch : Http) (c : CMSClient)
        (t : list Event) (e : Exn) (w' : World) :
  get fetch (mkWorld c t) = (Throws e, w') ->
  (exists cause, e = ErrorOf cause)
  /\ warnings (trace w') = warnings t
  /\ (fetches (trace w') = (fetches t ++ [requested_url c])%list
      \/ fetches (trace w')
         = (fetches t ++ [requested_url c; metadata_url (resourceId c)])%list).
Proof.
  rewrite get_after_compose.
  generalize (requested_url c) as u'. intros u'.
  destruct c as [rid od lm ty u o f]. run_methods.
  destruct (fetch u') as [resp|e0]; run_methods;
    [|intros [= <- <-]; close_get_branch].
  destruct (headers_get resp "x-soda2-fields") as [h|];
    [rewrite parse_fields_is_parse | unfold parse_fields];
    run_methods; [|intros [= <- <-]; close_get_branch].
  destruct (JSON.parse h) as [fv|]; run_methods;
    [|intros [= <- <-]; close_get_branch].
  destruct (truthy_flag (fo_includeMetadata o)).
  - destruct (fetch (metadata_url rid)) as [mresp|e0]; run_methods;
      [|intros [= <- <-]; close_get_branch].
    destruct (JSON.parse (body mresp)) as [mv|]; run_methods;
      [|intros [= <- <-]; close_get_branch].
    destruct (ty =? "csv")%string; run_methods.
    + destruct (truthy (header_value (headers_get resp "x-soda2-data-out-of-date")));
        cbn [negb]; run_methods; discriminate.
    + destruct (JSON.parse (body resp)) as [dv|]; run_methods;
        [|intros [= <- <-]; close_get_branch].
      destruct (truthy (header_value (headers_get resp "x-soda2-data-out-of-date")));
        cbn [negb]; run_methods; discriminate.
  - destruct (ty =? "csv")%string; run_methods.
    + destruct (truthy (header_value (headers_get resp "x-soda2-data-out-of-date")));
        cbn [negb]; run_methods; discriminate.
    + destruct (JSON.parse (body resp)) as [dv|]; run_methods;
        [|intros [= <- <-]; close_get_branch].
      destruct (truthy (header_value (headers_get resp "x-soda2-data-out-of-date")));
        cbn [negb]; run_methods; discriminate.
Qed.

Lemma get_rejection_is_wrapped_witness :
  (exists cause, ErrorOf SyntaxError = ErrorOf cause)
  /\ warnings [EFetch "https://data.cms.gov/resource/abc.json?";
               EFetch "https://data.cms.gov/api/views/metadata/v1/abc"]
     = warnings []
  /\ (fetches [EFetch "https://data.cms.gov/resource/abc.json?";
               EFetch "https://data.cms.gov/api/views/metadata/v1/abc"]
      = (fetches [] ++ [requested_url client_abc_metadata])%list
      \/ fetches [EFetch "https://data.cms.gov/resource/abc.json?";
                  EFetch "https://data.cms.gov/api/views/metadata/v1/abc"]
         = (fetches [] ++ [requested_url client_abc_metadata;
                           metadata_url (resourceId client_abc_metadata)])%list).
Proof.
  exact (get_rejection_is_wrapped
           (serving response_bad_body response_json_fields) client_abc_metadata []
           (ErrorOf SyntaxError)
           (mkWorld (mkCMSClient "abc" VNull VNull "json"
                                 "https://data.cms.gov/resource/abc.json?"
                                 (fetchOptions client_abc_metadata)
                                 (mkFetched rows names_abc (JObject [])))
                    [EFetch "https://data.cms.gov/resource/abc.json?";
                     EFetch "https://data.cms.gov/api/views/metadata/v1/abc"])
           eq_refl).
Defined.
